(** * PrestoDeck Spotify application: state, input loop, display loop

    A shallow embedding of [src/applications/spotify/spotify.py].

    The program is MicroPython and dynamically typed.  Values that come
    out of the Web API responses are kept as Python values ([pyval]);
    every operation that Python can refuse at run time ([obj[key]],
    [obj.get], arithmetic on [None], string concatenation) returns an
    explicit exception.  Mutation survives an exception, so the effectful
    code lives in a state monad whose state is returned on both the normal
    and the exceptional exit. *)

From Stdlib Require Import ZArith List String Bool Lia QArith.
From Stdlib Require Import Ascii DecimalString DecimalZ.
Import ListNotations.
Local Open Scope string_scope.
Local Open Scope Z_scope.

(** ** Python values *)

#[warnings="-register-all"]
Inductive pyval : Type :=
| PNone
| PBool (b : bool)
| PInt (n : Z)
| PStr (s : string)
| PList (l : list pyval)
| PDict (d : list (string * pyval)).

(** The subclasses of [Exception] the program can meet.  [RemoteError]
    stands for whatever the Web API client or the device layer raises. *)
Inductive exn : Type :=
| KeyError
| IndexError
| TypeError
| AttributeError
| RemoteError.

Inductive result (A : Type) : Type :=
| Ok (a : A)
| Raise (e : exn).
Arguments Ok {A} a.
Arguments Raise {A} e.

(** A dict is kept as its items; a key occurs once, the first binding is
    the one [lookup] sees. *)
Fixpoint lookup {A : Type} (k : string) (d : list (string * A)) : option A :=
  match d with
  | [] => None
  | (k', v) :: d' => if String.eqb k k' then Some v else lookup k d'
  end.

(** [bool(v)] *)
Definition truthy (v : pyval) : bool :=
  match v with
  | PNone => false
  | PBool b => b
  | PInt n => negb (n =? 0)
  | PStr s => negb (String.eqb s "")
  | PList l => match l with [] => false | _ => true end
  | PDict d => match d with [] => false | _ => true end
  end.

(** [bool] is a subclass of [int]: both take part in arithmetic and in
    comparisons. *)
Definition num_of (v : pyval) : option Z :=
  match v with
  | PBool b => Some (Z.b2z b)
  | PInt n => Some n
  | _ => None
  end.

(** [v == w] *)
Fixpoint py_eq (v w : pyval) {struct v} : bool :=
  match v, w with
  | PNone, PNone => true
  | PBool a, PBool b => Bool.eqb a b
  | PBool a, PInt n => Z.b2z a =? n
  | PInt n, PBool b => n =? Z.b2z b
  | PInt n, PInt m => n =? m
  | PStr s, PStr t => String.eqb s t
  | PList l1, PList l2 =>
      (fix all2 (xs ys : list pyval) {struct xs} : bool :=
         match xs, ys with
         | [], [] => true
         | x :: xs', y :: ys' => py_eq x y && all2 xs' ys'
         | _, _ => false
         end) l1 l2
  | PDict d1, PDict d2 =>
      Nat.eqb (List.length d1) (List.length d2) &&
      (fix every (es : list (string * pyval)) {struct es} : bool :=
         match es with
         | [] => true
         | (k, x) :: es' =>
             match lookup k d2 with
             | Some y => py_eq x y
             | None => false
             end && every es'
         end) d1
  | _, _ => false
  end.

(** [v.get(k, default)]: only a dict has the method. *)
Definition py_get (v : pyval) (k : string) (default : pyval) : result pyval :=
  match v with
  | PDict d => Ok (match lookup k d with Some x => x | None => default end)
  | _ => Raise AttributeError
  end.

(** [v[k]] for a string key. *)
Definition py_getitem (v : pyval) (k : string) : result pyval :=
  match v with
  | PDict d => match lookup k d with Some x => Ok x | None => Raise KeyError end
  | _ => Raise TypeError
  end.

(** [v[i]] for an integer index; a negative index counts from the end. *)
Definition py_getitem_int (v : pyval) (i : Z) : result pyval :=
  match v with
  | PList l =>
      let j := if i <? 0 then i + Z.of_nat (List.length l) else i in
      if j <? 0 then Raise IndexError
      else match nth_error l (Z.to_nat j) with
           | Some x => Ok x
           | None => Raise IndexError
           end
  | PStr s =>
      let j := if i <? 0 then i + Z.of_nat (String.length s) else i in
      if j <? 0 then Raise IndexError
      else match String.get (Z.to_nat j) s with
           | Some c => Ok (PStr (String c EmptyString))
           | None => Raise IndexError
           end
  | PDict _ => Raise KeyError
  | _ => Raise TypeError
  end.

(** [prefix + v] where [prefix] is a string literal. *)
Definition py_concat (prefix : string) (v : pyval) : result string :=
  match v with
  | PStr s => Ok (prefix ++ s)%string
  | _ => Raise TypeError
  end.

(** Binary arithmetic and ordering on numbers; anything else is a
    [TypeError]. *)
Definition py_arith (f : Z -> Z -> Z) (v w : pyval) : result Z :=
  match num_of v, num_of w with
  | Some a, Some b => Ok (f a b)
  | _, _ => Raise TypeError
  end.

Definition py_lt (v w : pyval) : result bool :=
  match num_of v, num_of w with
  | Some a, Some b => Ok (a <? b)
  | _, _ => Raise TypeError
  end.

(** [min(a, b)]: the first argument unless the second is smaller. *)
Definition py_min (a b : pyval) : result pyval :=
  match py_lt b a with
  | Ok c => Ok (if c then b else a)
  | Raise e => Raise e
  end.

(** [max(a, b)]: the first argument unless the second is larger. *)
Definition py_max (a b : pyval) : result pyval :=
  match py_lt a b with
  | Ok c => Ok (if c then b else a)
  | Raise e => Raise e
  end.

(** ** Statements: state that outlives an exception *)

Definition M (S A : Type) : Type := S -> S * result A.

Definition ret {S A : Type} (a : A) : M S A := fun s => (s, Ok a).

Definition bind {S A B : Type} (c : M S A) (k : A -> M S B) : M S B :=
  fun s =>
    match c s with
    | (s', Ok a) => k a s'
    | (s', Raise e) => (s', Raise e)
    end.

(** An expression that may raise, evaluated without touching the state. *)
Definition lift {S A : Type} (r : result A) : M S A := fun s => (s, r).

Definition gets {S A : Type} (f : S -> A) : M S A := fun s => (s, Ok (f s)).

Definition modify {S : Type} (f : S -> S) : M S unit := fun s => (f s, Ok tt).

(** [try: body / except Exception as e: handler e] *)
Definition try_except {S A : Type} (body : M S A) (handler : exn -> M S A)
  : M S A :=
  fun s =>
    match body s with
    | (s', Ok a) => (s', Ok a)
    | (s', Raise e) => handler e s'
    end.

Definition when {S : Type} (c : bool) (body : M S unit) : M S unit :=
  if c then body else ret tt.

Declare Scope py_scope.
Delimit Scope py_scope with py.
Notation "x <- c ;; k" := (bind c (fun x => k))
  (at level 61, c at next level, right associativity) : py_scope.
Notation "c ;; k" := (bind c (fun _ => k))
  (at level 61, right associativity) : py_scope.
Local Open Scope py_scope.

(** Expressions that may raise, outside any state. *)
Definition bindR {A B : Type} (r : result A) (k : A -> result B) : result B :=
  match r with
  | Ok a => k a
  | Raise e => Raise e
  end.

(** [c and rest] on booleans: [rest] is evaluated only when [c] holds. *)
Definition and_then (c : bool) (rest : result bool) : result bool :=
  if c then rest else Ok false.

(** ** class State

    [time.time()] is an integer number of seconds on the device.  The
    fields that only ever receive the value of [not ...], of a comparison
    or of a literal are booleans; the fields that receive values of a Web
    API response are Python values. *)

Module State.

Record t : Type := mk {
  toggle_leds : bool;
  is_playing : pyval;
  repeat : bool;
  shuffle : pyval;
  track : pyval;
  show_controls : bool;
  exit : bool;
  volume : pyval;
  is_liked : bool;
  progress_ms : pyval;
  duration_ms : pyval;
  last_activity : Z;
  is_dimmed : bool;
  latest_fetch : option Z
}.

(** [State.__init__], [now] being the value of [time.time()]. *)
Definition init (now : Z) : t :=
  {| toggle_leds := true;
     is_playing := PBool false;
     repeat := false;
     shuffle := PBool false;
     track := PNone;
     show_controls := false;
     exit := false;
     volume := PInt 50;
     is_liked := false;
     progress_ms := PInt 0;
     duration_ms := PInt 0;
     last_activity := now;
     is_dimmed := false;
     latest_fetch := None |}.

(** Attribute assignment, one setter per attribute the program writes. *)
Definition set_toggle_leds (v : bool) (s : t) : t :=
  mk v (is_playing s) (repeat s) (shuffle s) (track s) (show_controls s)
     (exit s) (volume s) (is_liked s) (progress_ms s) (duration_ms s)
     (last_activity s) (is_dimmed s) (latest_fetch s).
Definition set_is_playing (v : pyval) (s : t) : t :=
  mk (toggle_leds s) v (repeat s) (shuffle s) (track s) (show_controls s)
     (exit s) (volume s) (is_liked s) (progress_ms s) (duration_ms s)
     (last_activity s) (is_dimmed s) (latest_fetch s).
Definition set_repeat (v : bool) (s : t) : t :=
  mk (toggle_leds s) (is_playing s) v (shuffle s) (track s) (show_controls s)
     (exit s) (volume s) (is_liked s) (progress_ms s) (duration_ms s)
     (last_activity s) (is_dimmed s) (latest_fetch s).
Definition set_shuffle (v : pyval) (s : t) : t :=
  mk (toggle_leds s) (is_playing s) (repeat s) v (track s) (show_controls s)
     (exit s) (volume s) (is_liked s) (progress_ms s) (duration_ms s)
     (last_activity s) (is_dimmed s) (latest_fetch s).
Definition set_track (v : pyval) (s : t) : t :=
  mk (toggle_leds s) (is_playing s) (repeat s) (shuffle s) v (show_controls s)
     (exit s) (volume s) (is_liked s) (progress_ms s) (duration_ms s)
     (last_activity s) (is_dimmed s) (latest_fetch s).
Definition set_show_controls (v : bool) (s : t) : t :=
  mk (toggle_leds s) (is_playing s) (repeat s) (shuffle s) (track s) v
     (exit s) (volume s) (is_liked s) (progress_ms s) (duration_ms s)
     (last_activity s) (is_dimmed s) (latest_fetch s).
Definition set_exit (v : bool) (s : t) : t :=
  mk (toggle_leds s) (is_playing s) (repeat s) (shuffle s) (track s)
     (show_controls s) v (volume s) (is_liked s) (progress_ms s)
     (duration_ms s) (last_activity s) (is_dimmed s) (latest_fetch s).
Definition set_volume (v : pyval) (s : t) : t :=
  mk (toggle_leds s) (is_playing s) (repeat s) (shuffle s) (track s)
     (show_controls s) (exit s) v (is_liked s) (progress_ms s)
     (duration_ms s) (last_activity s) (is_dimmed s) (latest_fetch s).
Definition set_is_liked (v : bool) (s : t) : t :=
  mk (toggle_leds s) (is_playing s) (repeat s) (shuffle s) (track s)
     (show_controls s) (exit s) (volume s) v (progress_ms s)
     (duration_ms s) (last_activity s) (is_dimmed s) (latest_fetch s).
Definition set_progress_ms (v : pyval) (s : t) : t :=
  mk (toggle_leds s) (is_playing s) (repeat s) (shuffle s) (track s)
     (show_controls s) (exit s) (volume s) (is_liked s) v
     (duration_ms s) (last_activity s) (is_dimmed s) (latest_fetch s).
Definition set_duration_ms (v : pyval) (s : t) : t :=
  mk (toggle_leds s) (is_playing s) (repeat s) (shuffle s) (track s)
     (show_controls s) (exit s) (volume s) (is_liked s) (progress_ms s)
     v (last_activity s) (is_dimmed s) (latest_fetch s).
Definition set_last_activity (v : Z) (s : t) : t :=
  mk (toggle_leds s) (is_playing s) (repeat s) (shuffle s) (track s)
     (show_controls s) (exit s) (volume s) (is_liked s) (progress_ms s)
     (duration_ms s) v (is_dimmed s) (latest_fetch s).
Definition set_is_dimmed (v : bool) (s : t) : t :=
  mk (toggle_leds s) (is_playing s) (repeat s) (shuffle s) (track s)
     (show_controls s) (exit s) (volume s) (is_liked s) (progress_ms s)
     (duration_ms s) (last_activity s) v (latest_fetch s).
Definition set_latest_fetch (v : option Z) (s : t) : t :=
  mk (toggle_leds s) (is_playing s) (repeat s) (shuffle s) (track s)
     (show_controls s) (exit s) (volume s) (is_liked s) (progress_ms s)
     (duration_ms s) (last_activity s) (is_dimmed s) v.

(** [State.copy]: the copy keeps the track's id only, and starts from a
    fresh [State()], so its [latest_fetch] is [None].  [self.track['id']]
    raises on a track without the key. *)
Definition copy (now : Z) (self : t) : result t :=
  bindR (if truthy (track self)
         then bindR (py_getitem (track self) "id")
                    (fun i => Ok (PDict [("id", i)]))
         else Ok PNone)
    (fun tr =>
       Ok (set_is_dimmed (is_dimmed self)
          (set_last_activity (last_activity self)
          (set_duration_ms (duration_ms self)
          (set_progress_ms (progress_ms self)
          (set_is_liked (is_liked self)
          (set_volume (volume self)
          (set_track tr
          (set_exit (exit self)
          (set_show_controls (show_controls self)
          (set_shuffle (shuffle self)
          (set_repeat (repeat self)
          (set_is_playing (is_playing self)
          (set_toggle_leds (toggle_leds self)
          (init now))))))))))))))).

(** [(s.track or {}).get('id')] *)
Definition track_id (s : t) : result pyval :=
  py_get (if truthy (track s) then track s else PDict []) "id" PNone.

(** [abs(a - b) < 5000] *)
Definition within_tolerance (a b : pyval) : result bool :=
  bindR (py_arith Z.sub a b) (fun d => Ok (Z.abs d <? 5000)).

(** [State.__eq__].  [other] is [None] or a [State]; the conjunction is
    evaluated left to right and stops at the first false operand. *)
Definition eq (self : t) (other : option t) : result bool :=
  match other with
  | None => Ok false
  | Some other =>
      and_then (Bool.eqb (toggle_leds self) (toggle_leds other))
      (and_then (py_eq (is_playing self) (is_playing other))
      (and_then (Bool.eqb (repeat self) (repeat other))
      (and_then (py_eq (shuffle self) (shuffle other))
      (and_then (Bool.eqb (show_controls self) (show_controls other))
      (and_then (Bool.eqb (exit self) (exit other))
      (bindR (track_id self) (fun i =>
       bindR (track_id other) (fun j =>
       and_then (py_eq i j)
      (and_then (py_eq (volume self) (volume other))
      (and_then (Bool.eqb (is_liked self) (is_liked other))
      (bindR (within_tolerance (progress_ms self) (progress_ms other))
         (fun c =>
       and_then c
         (Ok (Bool.eqb (is_dimmed self) (is_dimmed other)))))))))))))))
  end.

End State.

(** ** The outside world

    The Web API client, the LEDs, the backlight and the console are not
    part of the program.  Every call to them is recorded as an event, in
    program order, and what a call answers is supplied by the
    environment. *)

(** Methods of [SpotifyWebApiClient] the program calls. *)
Inductive Command : Type :=
| pause
| play
| next
| previous
| toggle_shuffle (on : bool)
| toggle_repeat (on : bool)
| set_volume (v : pyval)
| save_track (track_id : pyval)
| remove_saved_track (track_id : pyval)
| check_saved_track (track_id : pyval)
| current_playing
| recently_played.

(** What [print] is given. *)
Inductive Message : Type :=
| Text (s : string)
| TextExn (s : string) (e : exn)
| TextVal (before : string) (v : pyval) (after : string).

Inductive Event : Type :=
| Remote (c : Command)
| Leds (on : bool)
| Backlight (level : Q)
| Print (m : Message).

(** Modelled from the spec: the Web API client
    ([applications/spotify/spotify_client.py]) is not among the sources.
    By section 6 of the specification its commands return nothing or
    raise, [currentPlaying] and [recentlyPlayed] return a response or
    raise, and [checkSavedTrack] returns a bool or raises.  A client is
    the answers it gives. *)
Record Client : Type := {
  command_result : Command -> result unit;
  current_playing_result : result pyval;
  recently_played_result : result pyval;
  check_saved_track_result : pyval -> result bool
}.

(** [(x, y, width, height)] *)
Definition Bounds : Type := (Z * Z * Z * Z)%type.

(** Modelled from the spec: [BaseApp] ([base.py]) and the touch driver
    are not among the sources.  One reading of the world is the clock,
    the client's answers, what [BaseApp.toggle_leds] answers, and, after
    [touch.poll()], which touch areas report a press, that is, have the
    touch point within their bounds. *)
Record Env : Type := {
  time : Z;
  client : Client;
  leds_result : bool -> result unit;
  button_is_pressed : Bounds -> bool
}.

(** The application object without its buttons: the state, the device id
    of the client session, and the events so far (latest last). *)
Record App : Type := {
  state : State.t;
  session_device_id : pyval;
  out : list Event
}.

Definition with_state (f : State.t -> State.t) (a : App) : App :=
  {| state := f (state a);
     session_device_id := session_device_id a;
     out := out a |}.

Definition emit (e : Event) (a : App) : App :=
  {| state := state a;
     session_device_id := session_device_id a;
     out := out a ++ [e] |}.

Definition set_session_device_id (v : pyval) (a : App) : App :=
  {| state := state a; session_device_id := v; out := out a |}.

Definition assign (f : State.t -> State.t) : M App unit :=
  modify (with_state f).

Definition print (m : Message) : M App unit := modify (emit (Print m)).

(** [self.spotify_client.<command>(...)] *)
Definition call (env : Env) (c : Command) : M App unit :=
  fun a => (emit (Remote c) a, command_result (client env) c).

(** [self.toggle_leds(on)] *)
Definition call_leds (env : Env) (on : bool) : M App unit :=
  fun a => (emit (Leds on) a, leds_result env on).

(** ** On-press handlers of [setup_buttons] *)

Definition exit_app (env : Env) : M App unit :=
  assign (State.set_exit true).

Definition toggle_controls (env : Env) : M App unit :=
  s <- gets state;;
  assign (State.set_show_controls (negb (State.show_controls s)));;
  assign (State.set_last_activity (time env)).

Definition play_pause (env : Env) : M App unit :=
  s <- gets state;;
  (if truthy (State.is_playing s) then call env pause else call env play);;
  s <- gets state;;
  assign (State.set_is_playing (PBool (negb (truthy (State.is_playing s)))));;
  assign (State.set_last_activity (time env)).

Definition next_track (env : Env) : M App unit :=
  call env next;;
  assign (State.set_latest_fetch None);;
  assign (State.set_last_activity (time env)).

Definition previous_track (env : Env) : M App unit :=
  call env previous;;
  assign (State.set_latest_fetch None);;
  assign (State.set_last_activity (time env)).

(** [toggle_shuffle] and [toggle_repeat] of [setup_buttons]; the plain
    names are taken by the client's methods they call. *)
Definition toggle_shuffle_handler (env : Env) : M App unit :=
  s <- gets state;;
  call env (toggle_shuffle (negb (truthy (State.shuffle s))));;
  s <- gets state;;
  assign (State.set_shuffle (PBool (negb (truthy (State.shuffle s)))));;
  assign (State.set_last_activity (time env)).

Definition toggle_repeat_handler (env : Env) : M App unit :=
  s <- gets state;;
  call env (toggle_repeat (negb (State.repeat s)));;
  s <- gets state;;
  assign (State.set_repeat (negb (State.repeat s)));;
  assign (State.set_last_activity (time env)).

Definition toggle_lights (env : Env) : M App unit :=
  s <- gets state;;
  call_leds env (negb (State.toggle_leds s));;
  s <- gets state;;
  assign (State.set_toggle_leds (negb (State.toggle_leds s)));;
  assign (State.set_last_activity (time env)).

Definition volume_up (env : Env) : M App unit :=
  s <- gets state;;
  raised <- lift (py_arith Z.add (State.volume s) (PInt 10));;
  new_volume <- lift (py_min (PInt 100) (PInt raised));;
  call env (set_volume new_volume);;
  assign (State.set_volume new_volume);;
  assign (State.set_last_activity (time env));;
  print (TextVal "Volume: " new_volume "%").

Definition volume_down (env : Env) : M App unit :=
  s <- gets state;;
  lowered <- lift (py_arith Z.sub (State.volume s) (PInt 10));;
  new_volume <- lift (py_max (PInt 0) (PInt lowered));;
  call env (set_volume new_volume);;
  assign (State.set_volume new_volume);;
  assign (State.set_last_activity (time env));;
  print (TextVal "Volume: " new_volume "%").

Definition toggle_like (env : Env) : M App unit :=
  s <- gets state;;
  when (truthy (State.track s))
    (track_id <- lift (py_get (State.track s) "id" PNone);;
     (if State.is_liked s
      then call env (remove_saved_track track_id)
      else call env (save_track track_id));;
     s <- gets state;;
     assign (State.set_is_liked (negb (State.is_liked s)));;
     assign (State.set_last_activity (time env));;
     s <- gets state;;
     print (Text ("Track " ++ (if State.is_liked s then "liked" else "unliked")))).

(** ** class ControlButton

    The decoded PNGs are display resources and are left out.  [update]
    rewrites the two attributes a button shows, [enabled] and [icon]. *)

Record ControlButton : Type := {
  name : string;
  enabled : bool;
  icon : option string;
  bounds : Bounds;
  on_press : Env -> M App unit;
  update : State.t -> bool * option string -> bool * option string
}.

(** [ControlButton.__init__] *)
Definition new_button (name : string) (icons : list string) (bounds : Bounds)
    (on_press : Env -> M App unit)
    (update : State.t -> bool * option string -> bool * option string)
  : ControlButton :=
  {| name := name;
     enabled := false;
     icon := match icons with [] => None | i :: _ => Some i end;
     bounds := bounds;
     on_press := on_press;
     update := update |}.

(** [button.update(state, button)] *)
Definition run_update (s : State.t) (b : ControlButton) : ControlButton :=
  let '(e, i) := update b s (enabled b, icon b) in
  {| name := name b;
     enabled := e;
     icon := i;
     bounds := bounds b;
     on_press := on_press b;
     update := update b |}.

(** [ControlButton.is_pressed] *)
Definition is_pressed (env : Env) (b : ControlButton) : bool :=
  enabled b && button_is_pressed env (bounds b).

(** Shared update functions of [setup_buttons]. *)
Definition update_show_controls (s : State.t) (v : bool * option string) :=
  (State.show_controls s, snd v).

Definition update_always_enabled (s : State.t) (v : bool * option string) :=
  (true, snd v).

Definition update_play_pause (s : State.t) (v : bool * option string) :=
  (State.show_controls s,
   Some (if truthy (State.is_playing s) then "pause.png" else "play.png")).

Definition update_shuffle (s : State.t) (v : bool * option string) :=
  (State.show_controls s,
   Some (if truthy (State.shuffle s) then "shuffle_on.png" else "shuffle_off.png")).

Definition update_repeat (s : State.t) (v : bool * option string) :=
  (State.show_controls s,
   Some (if State.repeat s then "repeat_on.png" else "repeat_off.png")).

Definition update_light (s : State.t) (v : bool * option string) :=
  (State.show_controls s,
   Some (if State.toggle_leds s then "light_on.png" else "light_off.png")).

Definition update_like (s : State.t) (v : bool * option string) :=
  (State.show_controls s,
   Some (if State.is_liked s then "heart_filled.png" else "heart_empty.png")).

(** The display geometry [BaseApp] provides. *)
Record Screen : Type := {
  width : Z;
  height : Z;
  center_x : Z
}.

(** [Spotify.setup_buttons]: the buttons in the order of
    [buttons_config]. *)
Definition setup_buttons (d : Screen) : list ControlButton :=
  [ new_button "Exit" ["exit.png"] (0, 0, 80, 80)
      exit_app update_show_controls;
    new_button "Next" ["next.png"] (center_x d + 60, height d - 100, 80, 100)
      next_track update_show_controls;
    new_button "Previous" ["previous.png"]
      (center_x d - 140, height d - 100, 80, 100)
      previous_track update_show_controls;
    new_button "Play" ["play.png"; "pause.png"]
      (center_x d - 50, height d - 100, 80, 100)
      play_pause update_play_pause;
    new_button "Toggle Shuffle" ["shuffle_on.png"; "shuffle_off.png"]
      (center_x d - 230, height d - 100, 80, 100)
      toggle_shuffle_handler update_shuffle;
    new_button "Toggle Repeat" ["repeat_on.png"; "repeat_off.png"]
      (center_x d + 150, height d - 100, 80, 100)
      toggle_repeat_handler update_repeat;
    new_button "Toggle Light" ["light_on.png"; "light_off.png"]
      (width d - 100, 0, 100, 80)
      toggle_lights update_light;
    new_button "Volume Up" ["volume_up.png"] (width d - 100, 100, 80, 60)
      volume_up update_show_controls;
    new_button "Volume Down" ["volume_down.png"] (width d - 100, 170, 80, 60)
      volume_down update_show_controls;
    new_button "Like" ["heart_empty.png"; "heart_filled.png"]
      (20, height d - 200, 60, 60)
      toggle_like update_like;
    new_button "Toggle Controls" [] (0, 0, width d, height d)
      toggle_controls update_always_enabled ].

(** ** Spotify.touch_handler_loop *)

(** The dispatch site: the press is announced, the handler runs inside
    [try], a failure is printed. *)
Definition dispatch (env : Env) (b : ControlButton) : M App unit :=
  print (Text (name b ++ " pressed"));;
  try_except (on_press b env)
    (fun e => print (TextExn "Failed to execute on_press: " e)).

(** [for button in self.buttons: ...], leaving at the [break] after the
    first pressed button.  The result is the list of buttons as the scan
    left them: updated up to the pressed one, untouched after it. *)
Fixpoint scan (env : Env) (bs : list ControlButton)
  : M App (list ControlButton) :=
  match bs with
  | [] => ret []
  | b :: rest =>
      s <- gets state;;
      let b' := run_update s b in
      if is_pressed env b'
      then dispatch env b';; ret (b' :: rest)
      else rest' <- scan env rest;; ret (b' :: rest')
  end.

(** The application object. *)
Record Spotify : Type := {
  app : App;
  buttons : list ControlButton
}.

(** One iteration of the [while] loop.  [env] is the world as
    [self.touch.poll()] finds it; waiting for the release and the sleep
    change nothing the program holds. *)
Definition touch_tick (env : Env) (sp : Spotify) : Spotify * result unit :=
  match scan env (buttons sp) (app sp) with
  | (a, Ok bs) => ({| app := a; buttons := bs |}, Ok tt)
  | (a, Raise e) => ({| app := a; buttons := buttons sp |}, Raise e)
  end.

(** [while not self.state.exit: ...] over the successive readings of the
    world; an exception that leaves an iteration ends the task. *)
Fixpoint touch_handler_loop (envs : list Env) (sp : Spotify)
  : Spotify * result unit :=
  match envs with
  | [] => (sp, Ok tt)
  | env :: later =>
      if State.exit (state (app sp)) then (sp, Ok tt)
      else match touch_tick env sp with
           | (sp', Ok _) => touch_handler_loop later sp'
           | (sp', Raise e) => (sp', Raise e)
           end
  end.

(** ** fetch_state *)

(** The local variables of [fetch_state], with what the function has
    called and printed so far. *)
Module Locals.

Record t : Type := mk {
  current_track : pyval;
  is_playing : pyval;
  shuffle : pyval;
  repeat : bool;
  device_id : pyval;
  volume : pyval;
  progress_ms : pyval;
  duration_ms : pyval;
  out : list Event
}.

Definition init : t :=
  mk PNone (PBool false) (PBool false) false PNone (PInt 50) (PInt 0)
     (PInt 0) [].

Definition set_current_track (v : pyval) (l : t) : t :=
  mk v (is_playing l) (shuffle l) (repeat l) (device_id l) (volume l)
     (progress_ms l) (duration_ms l) (out l).
Definition set_is_playing (v : pyval) (l : t) : t :=
  mk (current_track l) v (shuffle l) (repeat l) (device_id l) (volume l)
     (progress_ms l) (duration_ms l) (out l).
Definition set_shuffle (v : pyval) (l : t) : t :=
  mk (current_track l) (is_playing l) v (repeat l) (device_id l) (volume l)
     (progress_ms l) (duration_ms l) (out l).
Definition set_repeat (v : bool) (l : t) : t :=
  mk (current_track l) (is_playing l) (shuffle l) v (device_id l) (volume l)
     (progress_ms l) (duration_ms l) (out l).
Definition set_device_id (v : pyval) (l : t) : t :=
  mk (current_track l) (is_playing l) (shuffle l) (repeat l) v (volume l)
     (progress_ms l) (duration_ms l) (out l).
Definition set_volume (v : pyval) (l : t) : t :=
  mk (current_track l) (is_playing l) (shuffle l) (repeat l) (device_id l) v
     (progress_ms l) (duration_ms l) (out l).
Definition set_progress_ms (v : pyval) (l : t) : t :=
  mk (current_track l) (is_playing l) (shuffle l) (repeat l) (device_id l)
     (volume l) v (duration_ms l) (out l).
Definition set_duration_ms (v : pyval) (l : t) : t :=
  mk (current_track l) (is_playing l) (shuffle l) (repeat l) (device_id l)
     (volume l) (progress_ms l) v (out l).
Definition emit (e : Event) (l : t) : t :=
  mk (current_track l) (is_playing l) (shuffle l) (repeat l) (device_id l)
     (volume l) (progress_ms l) (duration_ms l) (out l ++ [e]).

End Locals.

(** The tuple [fetch_state] returns. *)
Module Fetched.

Record t : Type := mk {
  device_id : pyval;
  track : pyval;
  is_playing : pyval;
  shuffle : pyval;
  repeat : bool;
  volume : pyval;
  progress_ms : pyval;
  duration_ms : pyval
}.

End Fetched.

(** A call on the client that answers with a value. *)
Definition query (c : Command) (answer : result pyval) : M Locals.t pyval :=
  fun l => (Locals.emit (Remote c) l, answer).

Definition say (m : Message) : M Locals.t unit :=
  modify (Locals.emit (Print m)).

(** The first [try] block: current playback. *)
Definition fetch_current (cl : Client) : M Locals.t unit :=
  try_except
    (resp <- query current_playing (current_playing_result cl);;
     item <- (if truthy resp then lift (py_get resp "item" PNone)
              else ret resp);;
     when (truthy item)
       (v <- lift (py_getitem resp "item");;
        modify (Locals.set_current_track v);;
        v <- lift (py_get resp "is_playing" PNone);;
        modify (Locals.set_is_playing v);;
        v <- lift (py_get resp "shuffle_state" PNone);;
        modify (Locals.set_shuffle v);;
        v <- lift (py_get resp "repeat_state" (PStr "off"));;
        modify (Locals.set_repeat (negb (py_eq v (PStr "off"))));;
        device <- lift (py_getitem resp "device");;
        v <- lift (py_getitem device "id");;
        modify (Locals.set_device_id v);;
        device <- lift (py_getitem resp "device");;
        v <- lift (py_get device "volume_percent" (PInt 50));;
        modify (Locals.set_volume v);;
        v <- lift (py_get resp "progress_ms" (PInt 0));;
        modify (Locals.set_progress_ms v);;
        current_track <- gets Locals.current_track;;
        v <- lift (py_get current_track "duration_ms" (PInt 0));;
        modify (Locals.set_duration_ms v);;
        track_name <- lift (py_get current_track "name" PNone);;
        line <- lift (py_concat "Got current playing track: " track_name);;
        say (Text line)))
    (fun e => say (TextExn "Failed to get current playing track:" e)).

(** The second [try] block: recently played. *)
Definition fetch_recent (cl : Client) : M Locals.t unit :=
  try_except
    (resp <- query recently_played (recently_played_result cl);;
     items <- (if truthy resp then lift (py_get resp "items" PNone)
               else ret resp);;
     when (truthy items)
       (items <- lift (py_getitem resp "items");;
        first <- lift (py_getitem_int items 0);;
        v <- lift (py_getitem first "track");;
        modify (Locals.set_current_track v);;
        current_track <- gets Locals.current_track;;
        v <- lift (py_get current_track "duration_ms" (PInt 0));;
        modify (Locals.set_duration_ms v);;
        track_name <- lift (py_get current_track "name" PNone);;
        line <- lift (py_concat "Got recently playing track: " track_name);;
        say (Text line)))
    (fun e => say (TextExn "Failed to get recently played track:" e)).

Definition fetch_state_body (cl : Client) : M Locals.t (option Fetched.t) :=
  fetch_current cl;;
  current_track <- gets Locals.current_track;;
  when (negb (truthy current_track)) (fetch_recent cl);;
  l <- gets (fun l => l);;
  if negb (truthy (Locals.current_track l)) then ret None
  else ret (Some (Fetched.mk (Locals.device_id l) (Locals.current_track l)
                    (Locals.is_playing l) (Locals.shuffle l) (Locals.repeat l)
                    (Locals.volume l) (Locals.progress_ms l)
                    (Locals.duration_ms l))).

(** [fetch_state(spotify_client)]: the events of the call, in order, and
    what the call returns, [None] or the tuple. *)
Definition fetch_state (cl : Client)
  : list Event * result (option Fetched.t) :=
  let '(l, r) := fetch_state_body cl Locals.init in (Locals.out l, r).

(** ** Spotify.display_loop

    The part of an iteration that changes the state: the poll, the
    progress estimate and the dimmer.  The album cover and the redraw that
    follow only draw.  [time.time()] is read once per use, so each use
    has its own reading. *)

Definition INTERVAL : Z := 10.
Definition INACTIVITY_TIMEOUT : Z := 30.

(** [not latest_fetch or now - latest_fetch > INTERVAL] *)
Definition poll_due (now : Z) (latest_fetch : option Z) : bool :=
  match latest_fetch with
  | None => true
  | Some f => (f =? 0) || (INTERVAL <? now - f)
  end.

(** [result = fetch_state(self.spotify_client)] inside the loop. *)
Definition run_fetch_state (cl : Client) : M App (option Fetched.t) :=
  fun a =>
    let '(events, r) := fetch_state cl in
    ({| state := state a;
        session_device_id := session_device_id a;
        out := out a ++ events |}, r).

(** [self.spotify_client.check_saved_track(track_id)] *)
Definition call_check_saved_track (cl : Client) (track_id : pyval)
  : M App bool :=
  fun a => (emit (Remote (check_saved_track track_id)) a,
            check_saved_track_result cl track_id).

(** Lines 392-406. *)
Definition poll_block (due_at fetched_at : Z) (cl : Client) : M App unit :=
  s <- gets state;;
  when (poll_due due_at (State.latest_fetch s))
    (assign (State.set_latest_fetch (Some fetched_at));;
     result <- run_fetch_state cl;;
     match result with
     | None => ret tt
     | Some r =>
         assign (State.set_track (Fetched.track r));;
         assign (State.set_is_playing (Fetched.is_playing r));;
         assign (State.set_shuffle (Fetched.shuffle r));;
         assign (State.set_repeat (Fetched.repeat r));;
         assign (State.set_volume (Fetched.volume r));;
         assign (State.set_progress_ms (Fetched.progress_ms r));;
         assign (State.set_duration_ms (Fetched.duration_ms r));;
         when (truthy (Fetched.device_id r))
           (modify (set_session_device_id (Fetched.device_id r)));;
         s <- gets state;;
         when (truthy (State.track s))
           (track_id <- lift (py_get (State.track s) "id" PNone);;
            try_except
              (liked <- call_check_saved_track cl track_id;;
               assign (State.set_is_liked liked))
              (fun e => print (TextExn "Failed to check liked status: " e)))
     end).

(** Lines 410-414.  [latest_fetch] is [None] after a skip to the next or
    the previous track; subtracting it is a [TypeError]. *)
Definition progress_block (now : Z) : M App unit :=
  s <- gets state;;
  playing <- (if truthy (State.is_playing s)
              then lift (py_lt (PInt 0) (State.duration_ms s))
              else ret false);;
  when playing
    (latest_fetch <- lift (match State.latest_fetch s with
                           | Some f => Ok f
                           | None => Raise TypeError
                           end);;
     let time_passed := (now - latest_fetch) * 1000 in
     advanced <- lift (py_arith Z.add (State.progress_ms s) (PInt time_passed));;
     v <- lift (py_min (PInt advanced) (State.duration_ms s));;
     assign (State.set_progress_ms v)).

(** [self.display.set_backlight(level)] *)
Definition set_backlight (level : Q) : M App unit :=
  modify (emit (Backlight level)).

(** Lines 416-424. *)
Definition dimmer_block (now : Z) : M App unit :=
  s <- gets state;;
  if INACTIVITY_TIMEOUT <? now - State.last_activity s
  then when (negb (State.is_dimmed s))
         (assign (State.set_is_dimmed true);;
          set_backlight (3 # 10))
  else when (State.is_dimmed s)
         (assign (State.set_is_dimmed false);;
          set_backlight 1).

(** The readings of one iteration. *)
Record Reading : Type := {
  due_at : Z;
  fetched_at : Z;
  progress_at : Z;
  dim_at : Z;
  api : Client
}.

Definition display_tick (r : Reading) : M App unit :=
  poll_block (due_at r) (fetched_at r) (api r);;
  progress_block (progress_at r);;
  dimmer_block (dim_at r).

(** [while not self.state.exit: ...] *)
Fixpoint display_loop (rs : list Reading) (a : App) : App * result unit :=
  match rs with
  | [] => (a, Ok tt)
  | r :: later =>
      if State.exit (state a) then (a, Ok tt)
      else match display_tick r a with
           | (a', Ok _) => display_loop later a'
           | (a', Raise e) => (a', Raise e)
           end
  end.

(** ** format_time *)

(** [str(n)] of an integer. *)
Definition py_str_int (n : Z) : string :=
  NilZero.string_of_int (Z.to_int n).

(** [f"{n:02d}"]: the decimal of [n], a zero put before a single digit. *)
Definition py_format_02d (n : Z) : string :=
  if (0 <=? n) && (n <? 10) then "0" ++ py_str_int n else py_str_int n.

(** [format_time(seconds)], [//] and [%] rounding down as in Python. *)
Definition format_time (seconds : Z) : string :=
  let minutes := seconds / 60 in
  let seconds := seconds mod 60 in
  py_str_int minutes ++ ":" ++ py_format_02d seconds.

(** ** ControlButton.draw and ControlButton.draw_icon *)

(** [self.pngs]: for each icon name the decoded image, of which the
    program uses the width and the height. *)
Definition Pngs : Type := list (string * (Z * Z)).

(** The loop of [ControlButton.__init__] over [icons]; [size] gives the
    dimensions of the image files. *)
Definition load_pngs (size : string -> Z * Z) (icons : list string) : Pngs :=
  map (fun icon => (icon, size icon)) icons.

(** [self.pngs[self.icon]] *)
Definition png_of (pngs : Pngs) (icon : option string) : result (Z * Z) :=
  match icon with
  | Some i => match lookup i pngs with
              | Some png => Ok png
              | None => Raise KeyError
              end
  | None => Raise KeyError
  end.

(** [ControlButton.draw_icon]: where [png.decode] is told to put the
    image. *)
Definition draw_icon (pngs : Pngs) (b : ControlButton) : result (Z * Z) :=
  bindR (png_of pngs (icon b)) (fun png =>
    let '(x, y, width, height) := bounds b in
    let '(png_width, png_height) := png in
    let x_offset := (width - png_width) / 2 in
    let y_offset := (height - png_height) / 2 in
    Ok (x + x_offset, y + y_offset)).

(** [bool(self.icon)] *)
Definition icon_truthy (icon : option string) : bool :=
  match icon with
  | Some i => negb (String.eqb i "")
  | None => false
  end.

(** [ControlButton.draw]: the position of the decoded icon, or [None]
    when nothing is drawn. *)
Definition draw (pngs : Pngs) (b : ControlButton) : result (option (Z * Z)) :=
  if enabled b && icon_truthy (icon b)
  then bindR (draw_icon pngs b) (fun at_ => Ok (Some at_))
  else Ok None.

(** [buttons_config] of [setup_buttons]. *)
Definition buttons_config (d : Screen)
  : list (string * list string * Bounds * (Env -> M App unit)
          * (State.t -> bool * option string -> bool * option string)) :=
  [ ("Exit", ["exit.png"], (0, 0, 80, 80), exit_app, update_show_controls);
    ("Next", ["next.png"], (center_x d + 60, height d - 100, 80, 100),
     next_track, update_show_controls);
    ("Previous", ["previous.png"], (center_x d - 140, height d - 100, 80, 100),
     previous_track, update_show_controls);
    ("Play", ["play.png"; "pause.png"],
     (center_x d - 50, height d - 100, 80, 100), play_pause, update_play_pause);
    ("Toggle Shuffle", ["shuffle_on.png"; "shuffle_off.png"],
     (center_x d - 230, height d - 100, 80, 100),
     toggle_shuffle_handler, update_shuffle);
    ("Toggle Repeat", ["repeat_on.png"; "repeat_off.png"],
     (center_x d + 150, height d - 100, 80, 100),
     toggle_repeat_handler, update_repeat);
    ("Toggle Light", ["light_on.png"; "light_off.png"],
     (width d - 100, 0, 100, 80), toggle_lights, update_light);
    ("Volume Up", ["volume_up.png"], (width d - 100, 100, 80, 60),
     volume_up, update_show_controls);
    ("Volume Down", ["volume_down.png"], (width d - 100, 170, 80, 60),
     volume_down, update_show_controls);
    ("Like", ["heart_empty.png"; "heart_filled.png"],
     (20, height d - 200, 60, 60), toggle_like, update_like);
    ("Toggle Controls", [], (0, 0, width d, height d),
     toggle_controls, update_always_enabled) ].

(** The buttons of [setup_buttons], each with the images its
    constructor loaded. *)
Definition loaded_buttons (size : string -> Z * Z) (d : Screen)
  : list (ControlButton * Pngs) :=
  map (fun '(name, icons, bounds, on_press, update) =>
         (new_button name icons bounds on_press update, load_pngs size icons))
      (buttons_config d).

(** ** get_album_cover *)

(** Modelled from the spec: [urequests] is not among the sources.  A
    response is its [status_code] and its [content]; [requests.get]
    returns one or raises. *)
Record Response : Type := {
  status_code : Z;
  content : string
}.

(** What [get_album_cover] does to the outside: the request, the
    prints. *)
Inductive CoverEvent : Type :=
| Get (url : Message)
| Said (m : Message).

(** [f"https://wsrv.nl/?url={img_url}&w=480&h=480"] *)
Definition resize_url (img_url : pyval) : Message :=
  TextVal "https://wsrv.nl/?url=" img_url "&w=480&h=480".

(** [track["album"]["images"][1]["url"]] *)
Definition img_url_of (track : pyval) : result pyval :=
  bindR (py_getitem track "album") (fun album =>
  bindR (py_getitem album "images") (fun images =>
  bindR (py_getitem_int images 1) (fun image =>
  py_getitem image "url"))).

(** [get_album_cover(track)]: the events, and the image bytes or [None].
    The lookup of the URL is outside the [try]. *)
Definition get_album_cover (requests_get : Message -> result Response)
    (track : pyval) : list CoverEvent * result (option string) :=
  match img_url_of track with
  | Raise e => ([], Raise e)
  | Ok img_url =>
      match requests_get (resize_url img_url) with
      | Ok response =>
          if status_code response =? 200
          then ([Get (resize_url img_url)], Ok (Some (content response)))
          else ([Get (resize_url img_url);
                 Said (TextVal "Failed to fetch image:"
                         (PInt (status_code response)) "")],
                Ok None)
      | Raise e =>
          ([Get (resize_url img_url); Said (TextExn "Fetch image error:" e)],
           Ok None)
      end
  end.

(** ** The texts of write_track

    A string is the sequence of its code points, each below 256. *)

(** [''.join(i if ord(i) < 128 else ' ' for i in text)] *)
Fixpoint strip_non_ascii (text : string) : string :=
  match text with
  | EmptyString => EmptyString
  | String c rest =>
      String (if (nat_of_ascii c <? 128)%nat then c else " "%char)
             (strip_non_ascii rest)
  end.

(** [text[:limit] + " ..." if len(text) > limit else text] *)
Definition ellipsize (limit : nat) (text : string) : string :=
  if (limit <? String.length text)%nat
  then (substring 0 limit text ++ " ...")%string
  else text.

(** The track name as [write_track] draws it (lines 325-329). *)
Definition track_name_text (track_name : string) : string :=
  ellipsize 20 (strip_non_ascii track_name).

(** The artists as [write_track] draws them (lines 337-341), from the
    names of the artists. *)
Definition artists_text (names : list string) : string :=
  ellipsize 35 (strip_non_ascii (String.concat ", " names)).

(** * Vocabulary of the properties *)

(** A snapshot carries values of the types [State.__init__] gives its
    attributes: booleans for [is_playing] and [shuffle], integers for
    [volume] and [progress_ms], and for [track] either [None] or a dict
    whose id, when it has one, is a string or [None].  [well_typed]
    decides it. *)
Definition is_bool (v : pyval) : bool :=
  match v with PBool _ => true | _ => false end.

Definition is_int (v : pyval) : bool :=
  match v with PInt _ => true | _ => false end.

Definition is_id (v : pyval) : bool :=
  match v with PNone | PStr _ => true | _ => false end.

Definition is_track (v : pyval) : bool :=
  match v with
  | PNone => true
  | PDict d => match lookup "id" d with Some i => is_id i | None => true end
  | _ => false
  end.

Definition well_typed (s : State.t) : bool :=
  is_bool (State.is_playing s) && is_bool (State.shuffle s) &&
  is_int (State.volume s) && is_int (State.progress_ms s) &&
  is_track (State.track s).

(** The line printed when a button is found pressed. *)
Definition pressed_line (b : ControlButton) : Event :=
  Print (Text (name b ++ " pressed")).

(** The line printed when its handler raised. *)
Definition failed_line (e : exn) : Event :=
  Print (TextExn "Failed to execute on_press: " e).

(** The command a press on play/pause sends. *)
Definition play_pause_command (s : State.t) : Command :=
  if truthy (State.is_playing s) then pause else play.

(** A button as the scan sees it: updated against the current state. *)
Definition hit (env : Env) (s : State.t) (b : ControlButton) : bool :=
  is_pressed env (run_update s b).

(** [d.get(k, default)] on the items of a dict. *)
Definition dict_get (d : list (string * pyval)) (k : string) (default : pyval)
  : pyval :=
  match lookup k d with Some x => x | None => default end.

(** [track.get("duration_ms", 0)], the local keeping its initial 0 when
    the track is no dict. *)
Definition duration_of (track : pyval) : pyval :=
  match py_get track "duration_ms" (PInt 0) with
  | Ok v => v
  | Raise _ => PInt 0
  end.

(** The tuple of a current-playback response [r] with item [item], device
    [dev] and device id [did]. *)
Definition current_playback (r dev : list (string * pyval)) (item did : pyval)
  : Fetched.t :=
  {| Fetched.device_id := did;
     Fetched.track := item;
     Fetched.is_playing := dict_get r "is_playing" PNone;
     Fetched.shuffle := dict_get r "shuffle_state" PNone;
     Fetched.repeat :=
       negb (py_eq (dict_get r "repeat_state" (PStr "off")) (PStr "off"));
     Fetched.volume := dict_get dev "volume_percent" (PInt 50);
     Fetched.progress_ms := dict_get r "progress_ms" (PInt 0);
     Fetched.duration_ms := duration_of item |}.

(** The item a current-playback answer yields, if any: the call returned,
    the response is truthy and has a truthy ["item"]. *)
Definition current_item (answer : result pyval) : option pyval :=
  match answer with
  | Ok resp =>
      if truthy resp
      then match py_get resp "item" PNone with
           | Ok item => if truthy item then Some item else None
           | Raise _ => None
           end
      else None
  | Raise _ => None
  end.

(** The track a recently-played answer yields, if any: the call returned,
    the response has a truthy ["items"] whose first entry has a truthy
    ["track"]. *)
Definition recent_track (answer : result pyval) : option pyval :=
  match answer with
  | Ok resp =>
      if truthy resp
      then match py_get resp "items" PNone with
           | Ok items =>
               if truthy items
               then match py_getitem_int items 0 with
                    | Ok first =>
                        match py_getitem first "track" with
                        | Ok track => if truthy track then Some track else None
                        | Raise _ => None
                        end
                    | Raise _ => None
                    end
               else None
           | Raise _ => None
           end
      else None
  | Raise _ => None
  end.

(** The locals before any assignment, after some events. *)
Definition untouched (events : list Event) : Locals.t :=
  Locals.mk PNone (PBool false) (PBool false) false PNone (PInt 50) (PInt 0)
    (PInt 0) events.

(** The tuple of the fallback: the track and its duration, everything
    else as initialised. *)
Definition recent_playback (track : pyval) : Fetched.t :=
  {| Fetched.device_id := PNone;
     Fetched.track := track;
     Fetched.is_playing := PBool false;
     Fetched.shuffle := PBool false;
     Fetched.repeat := false;
     Fetched.volume := PInt 50;
     Fetched.progress_ms := PInt 0;
     Fetched.duration_ms := duration_of track |}.

(** A statement keeps a relation between the state before and the state
    after, whether it returns or raises. *)
Definition keeps {S A : Type} (R : S -> S -> Prop) (c : M S A) : Prop :=
  forall s, R s (fst (c s)).


(** The levels [set_backlight] was called with, in order. *)
Fixpoint backlight_calls (events : list Event) : list Q :=
  match events with
  | [] => []
  | Backlight level :: rest => level :: backlight_calls rest
  | _ :: rest => backlight_calls rest
  end.



(** The methods of the client that were called, in order. *)
Fixpoint remote_calls (events : list Event) : list Command :=
  match events with
  | [] => []
  | Remote c :: rest => c :: remote_calls rest
  | _ :: rest => remote_calls rest
  end.

(** A statement that returns from every state: no exception leaves it. *)
Definition returns {S A : Type} (c : M S A) : Prop :=
  forall s, exists s' x, c s = (s', Ok x).

(** Inside [fetch_state]: the local [current_track] and the calls made
    stay as they are. *)
Definition same_track_and_calls (l l' : Locals.t) : Prop :=
  Locals.current_track l' = Locals.current_track l /\
  remote_calls (Locals.out l') = remote_calls (Locals.out l).

(** Inside [fetch_state]: the calls made stay as they are. *)
Definition same_calls (l l' : Locals.t) : Prop :=
  remote_calls (Locals.out l') = remote_calls (Locals.out l).

(** The time of the last fetch and the calls made on the client stay as
    they are. *)
Definition leaves_client_alone (a a' : App) : Prop :=
  State.latest_fetch (state a') = State.latest_fetch (state a) /\
  remote_calls (out a') = remote_calls (out a).

(** Events are only added. *)
Definition only_adds (a a' : App) : Prop :=
  exists more, out a' = (out a ++ more)%list.

(** What the handlers leave to the display loop: the track, the
    progress, the duration, the dimmer flag, the session's device id,
    the backlight; and they do not clear [exit]. *)
Definition display_side_kept (a a' : App) : Prop :=
  State.track (state a') = State.track (state a) /\
  State.progress_ms (state a') = State.progress_ms (state a) /\
  State.duration_ms (state a') = State.duration_ms (state a) /\
  State.is_dimmed (state a') = State.is_dimmed (state a) /\
  session_device_id a' = session_device_id a /\
  backlight_calls (out a') = backlight_calls (out a) /\
  (State.exit (state a) = true -> State.exit (state a') = true).

(** The commands among the calls: everything but the three queries of
    the display loop. *)
Fixpoint commands_sent (calls : list Command) : list Command :=
  match calls with
  | [] => []
  | current_playing :: rest => commands_sent rest
  | recently_played :: rest => commands_sent rest
  | check_saved_track _ :: rest => commands_sent rest
  | c :: rest => c :: commands_sent rest
  end.

(** What the display loop leaves to the handlers: the overlay flag, the
    exit flag, the LED flag, the time of the last activity; and it sends
    no command. *)
Definition input_side_kept (a a' : App) : Prop :=
  State.show_controls (state a') = State.show_controls (state a) /\
  State.exit (state a') = State.exit (state a) /\
  State.toggle_leds (state a') = State.toggle_leds (state a) /\
  State.last_activity (state a') = State.last_activity (state a) /\
  commands_sent (remote_calls (out a')) = commands_sent (remote_calls (out a)).

(** A button after a series of updates, one per state. *)
Definition updated (states : list State.t) (b : ControlButton) : ControlButton :=
  fold_left (fun b s => run_update s b) states b.

(** The icon of a button is one of its loaded images, or there is none. *)
Definition icon_loaded (pngs : Pngs) (b : ControlButton) : Prop :=
  match icon b with
  | Some i => lookup i pngs <> None
  | None => True
  end.

(** An update function picks icons among the loaded images only, or
    leaves the icon as it is. *)
Definition picks_loaded (pngs : Pngs)
    (u : State.t -> bool * option string -> bool * option string) : Prop :=
  forall s v,
    snd (u s v) = snd v \/
    exists i, snd (u s v) = Some i /\ lookup i pngs <> None.

(** Every character is ASCII. *)
Fixpoint all_ascii (text : string) : bool :=
  match text with
  | EmptyString => true
  | String c rest => (nat_of_ascii c <? 128)%nat && all_ascii rest
  end.

(** * Sample states, clients and touches *)


(** A snapshot with a track, playing. *)
Definition playing_snapshot : State.t :=
  State.set_track (PDict [("id", PStr "4uLU6hMCjMI75M1A2tKUQC")])
    (State.set_is_playing (PBool true) (State.init 0)).

(** Sample answers of the Web API. *)
Definition sample_track : pyval :=
  PDict [("id", PStr "4uLU6hMCjMI75M1A2tKUQC");
         ("name", PStr "Never Gonna Give You Up");
         ("duration_ms", PInt 213573)].

Definition sample_device : list (string * pyval) :=
  [("id", PStr "5fbb3ba6aa454b5534c4ba43a8c7e8e45a63ad0e");
   ("volume_percent", PInt 80)].

Definition sample_playback : list (string * pyval) :=
  [("device", PDict sample_device);
   ("repeat_state", PStr "context");
   ("shuffle_state", PBool false);
   ("progress_ms", PInt 42000);
   ("is_playing", PBool true);
   ("item", sample_track)].

Definition sample_history : list (string * pyval) :=
  [("items", PList [PDict [("track", sample_track)]])].

Definition online_client : Client :=
  {| command_result := fun _ => Ok tt;
     current_playing_result := Ok (PDict sample_playback);
     recently_played_result := Ok (PDict sample_history);
     check_saved_track_result := fun _ => Ok true |}.

(** Nothing is playing: the current-playback call answers with [None]. *)
Definition idle_client : Client :=
  {| command_result := fun _ => Ok tt;
     current_playing_result := Ok PNone;
     recently_played_result := Ok (PDict sample_history);
     check_saved_track_result := fun _ => Ok true |}.

(** A 480 by 480 display. *)
Definition presto_screen : Screen :=
  {| width := 480; height := 480; center_x := 240 |}.

(** A touch driver that reports a press for every area containing the
    point. *)
Definition touch_at (px py : Z) (b : Bounds) : bool :=
  let '(x, y, w, h) := b in
  (x <=? px) && (px <=? x + w) && (y <=? py) && (py <=? y + h).

(** A client whose every call raises. *)
Definition failing_client : Client :=
  {| command_result := fun _ => Raise RemoteError;
     current_playing_result := Raise RemoteError;
     recently_played_result := Raise RemoteError;
     check_saved_track_result := fun _ => Raise RemoteError |}.

(** A touch on the play button while the client is offline. *)
Definition press_play_offline : Env :=
  {| time := 100;
     client := failing_client;
     leds_result := fun _ => Ok tt;
     button_is_pressed := touch_at 230 430 |}.

(** The application right after start, with the controls overlay shown. *)
Definition controls_shown : Spotify :=
  {| app := {| state := State.set_show_controls true (State.init 0);
               session_device_id := PNone;
               out := [] |};
     buttons := setup_buttons presto_screen |}.

(** The play button of [setup_buttons presto_screen]. *)
Definition play_button : ControlButton :=
  new_button "Play" ["play.png"; "pause.png"] (190, 380, 80, 100)
    play_pause update_play_pause.



(** A touch on the play button with the client answering. *)
Definition touch_online : Env :=
  {| time := 100;
     client := online_client;
     leds_result := fun _ => Ok tt;
     button_is_pressed := touch_at 230 430 |}.

Definition touch_corner : Env :=
  {| time := 100;
     client := failing_client;
     leds_result := fun _ => Ok tt;
     button_is_pressed := touch_at 40 40 |}.

(** The application right after start. *)
Definition fresh_app : App :=
  {| state := State.init 0; session_device_id := PNone; out := [] |}.

(** The application showing a track, and a client that has nothing to
    report: no current item, an empty history. *)
Definition silent_client : Client :=
  {| command_result := fun _ => Ok tt;
     current_playing_result := Ok (PDict [("is_playing", PBool false)]);
     recently_played_result := Ok (PDict [("items", PList [])]);
     check_saved_track_result := fun _ => Ok false |}.

Definition showing_track : App :=
  {| state := State.set_duration_ms (PInt 213573)
                (State.set_progress_ms (PInt 42000)
                   (State.set_track sample_track
                      (State.set_is_playing (PBool true) (State.init 0))));
     session_device_id := PStr "5fbb3ba6aa454b5534c4ba43a8c7e8e45a63ad0e";
     out := [] |}.

(** Playing a track of 200000 ms from its start, fetched at second 1000. *)
Definition playing_from_start : App :=
  {| state := State.set_latest_fetch (Some 1000)
                (State.set_duration_ms (PInt 200000)
                   (State.set_is_playing (PBool true) (State.init 0)));
     session_device_id := PNone;
     out := [] |}.


(** A response with an item and without a device. *)
Definition playback_without_device : list (string * pyval) :=
  [("item", sample_track); ("is_playing", PBool true);
   ("progress_ms", PInt 42000)].

Definition deviceless_client : Client :=
  {| command_result := fun _ => Ok tt;
     current_playing_result := Ok (PDict playback_without_device);
     recently_played_result := Ok (PDict sample_history);
     check_saved_track_result := fun _ => Ok true |}.

(** A client that answers, except for the liked status. *)
Definition liked_unknown_client : Client :=
  {| command_result := fun _ => Ok tt;
     current_playing_result := Ok (PDict sample_playback);
     recently_played_result := Ok (PDict sample_history);
     check_saved_track_result := fun _ => Raise RemoteError |}.

(** The application with a liked track, before any poll. *)
Definition liked_app : App :=
  {| state := State.set_is_liked true (State.init 0);
     session_device_id := PNone;
     out := [] |}.

(** A reading of the display loop at one time, with a client that
    answers. *)
Definition reading_at (t : Z) : Reading :=
  {| due_at := t; fetched_at := t; progress_at := t; dim_at := t;
     api := online_client |}.

(** The volume-up button of [setup_buttons presto_screen]. *)
Definition volume_up_button : ControlButton :=
  new_button "Volume Up" ["volume_up.png"] (380, 100, 80, 60)
    volume_up update_show_controls.

(** The application at volume 95. *)
Definition loud_app : App :=
  with_state (State.set_volume (PInt 95)) fresh_app.

(** The application showing a liked track and one that is not liked. *)
Definition unliked_track_app : App :=
  with_state (State.set_track sample_track) fresh_app.

(** The application dimmed after a long rest, with the overlay shown. *)
Definition dimmed_app : App :=
  with_state (State.set_is_dimmed true)
    (with_state (State.set_show_controls true) fresh_app).

(** Image files of 48 by 48 pixels. *)
Definition icons_48 (icon : string) : Z * Z := (48, 48).

(** A track whose album has a single image, and one with two. *)
Definition single_image_track : pyval :=
  PDict [("id", PStr "6rqhFgbbKwnb9MLmUQDhG6");
         ("album", PDict [("images",
             PList [PDict [("url", PStr "https://i.scdn.co/image/large")]])])].

Definition two_image_track : pyval :=
  PDict [("id", PStr "6rqhFgbbKwnb9MLmUQDhG6");
         ("album", PDict [("images",
             PList [PDict [("url", PStr "https://i.scdn.co/image/large")];
                    PDict [("url", PStr "https://i.scdn.co/image/medium")]])])].

(** An image service that is down, and one that answers 404. *)
Definition service_down (url : Message) : result Response := Raise RemoteError.

Definition service_404 (url : Message) : result Response :=
  Ok {| status_code := 404; content := "" |}.

(** * Properties *)

(** ** The model at work *)

(** Volume up from 95 stops at 100, volume down from 5 stops at 0. *)
Example volume_up_clamps :
  State.volume
    (state (fst (volume_up touch_online
                   (with_state (State.set_volume (PInt 95)) fresh_app))))
  = PInt 100.
Proof. reflexivity. Qed.

Example volume_down_clamps :
  State.volume
    (state (fst (volume_down touch_online
                   (with_state (State.set_volume (PInt 5)) fresh_app))))
  = PInt 0.
Proof. reflexivity. Qed.

(** What [fetch_state] calls, prints and returns for the sample
    answers. *)
Example fetch_state_online :
  fetch_state online_client
  = ([Remote current_playing;
      Print (Text "Got current playing track: Never Gonna Give You Up")],
     Ok (Some (current_playback sample_playback sample_device sample_track
                 (PStr "5fbb3ba6aa454b5534c4ba43a8c7e8e45a63ad0e")))).
Proof. reflexivity. Qed.

Example fetch_state_offline :
  fetch_state failing_client
  = ([Remote current_playing;
      Print (TextExn "Failed to get current playing track:" RemoteError);
      Remote recently_played;
      Print (TextExn "Failed to get recently played track:" RemoteError)],
     Ok None).
Proof. reflexivity. Qed.

(** A response with an item and no device: [resp["device"]] raises
    inside the first [try], after the track, [is_playing], [shuffle] and
    [repeat] were assigned; recently-played is not called and the tuple
    keeps the initial volume, progress and duration. *)
Example fetch_state_without_device :
  fetch_state
    {| command_result := fun _ => Ok tt;
       current_playing_result :=
         Ok (PDict [("item", sample_track); ("is_playing", PBool true);
                    ("progress_ms", PInt 42000)]);
       recently_played_result := Ok (PDict sample_history);
       check_saved_track_result := fun _ => Ok true |}
  = ([Remote current_playing;
      Print (TextExn "Failed to get current playing track:" KeyError)],
     Ok (Some (Fetched.mk PNone sample_track (PBool true) PNone false
                 (PInt 50) (PInt 0) (PInt 0)))).
Proof. reflexivity. Qed.

(** After a skip to the next track [latest_fetch] is [None]; an
    estimate that runs before the next poll raises. *)
Example progress_block_after_skip :
  snd (progress_block 1005
         (fst (next_track touch_online playing_from_start)))
  = Raise TypeError.
Proof. reflexivity. Qed.

(** The copy taken after a redraw equals the state it was taken from. *)
Example copy_equals_original :
  bindR (State.copy 5 (state showing_track))
    (fun snapshot => State.eq (state showing_track) (Some snapshot))
  = Ok true.
Proof. reflexivity. Qed.

(** ** Snapshots of the data model *)

Lemma and_then_true (c : bool) (r : result bool) :
  and_then c r = Ok true <-> c = true /\ r = Ok true.
Proof.
  destruct c; simpl; split; intros H.
  - split; [reflexivity | exact H].
  - apply H.
  - discriminate H.
  - destruct H as [H _]; discriminate H.
Qed.

Lemma py_eq_bool (v w : pyval) :
  is_bool v = true -> is_bool w = true -> (py_eq v w = true <-> v = w).
Proof.
  destruct v; try discriminate; destruct w; try discriminate; intros _ _.
  simpl. rewrite Bool.eqb_true_iff. split; congruence.
Qed.

Lemma py_eq_int (v w : pyval) :
  is_int v = true -> is_int w = true -> (py_eq v w = true <-> v = w).
Proof.
  destruct v; try discriminate; destruct w; try discriminate; intros _ _.
  simpl. rewrite Z.eqb_eq. split; congruence.
Qed.

Lemma py_eq_id (v w : pyval) :
  is_id v = true -> is_id w = true -> (py_eq v w = true <-> v = w).
Proof.
  destruct v; try discriminate; destruct w; try discriminate; intros _ _;
    simpl; try (split; congruence).
  rewrite String.eqb_eq. split; congruence.
Qed.

(** On a snapshot the id lookup does not raise and yields a string or
    [None]. *)
Lemma track_id_typed (s : State.t) :
  is_track (State.track s) = true ->
  exists i, State.track_id s = Ok i /\ is_id i = true.
Proof.
  unfold State.track_id, is_track.
  destruct (State.track s) as [| | | | |d]; try discriminate.
  - intros _. exists PNone. split; reflexivity.
  - destruct d as [|[k v] d'].
    + intros _. exists PNone. split; reflexivity.
    + cbn [truthy py_get].
      destruct (lookup "id" ((k, v) :: d')) as [i|].
      * intros H. exists i. split; [reflexivity | exact H].
      * intros _. exists PNone. split; reflexivity.
Qed.

Lemma well_typed_parts (s : State.t) :
  well_typed s = true ->
  is_bool (State.is_playing s) = true /\ is_bool (State.shuffle s) = true /\
  is_int (State.volume s) = true /\ is_int (State.progress_ms s) = true /\
  is_track (State.track s) = true.
Proof.
  unfold well_typed. rewrite !Bool.andb_true_iff. tauto.
Qed.

(** [State.__eq__] spelled out on snapshots. *)
Lemma eq_snapshots (A B : State.t) (pa pb : Z) :
  well_typed A = true -> well_typed B = true ->
  State.progress_ms A = PInt pa -> State.progress_ms B = PInt pb ->
  (State.eq A (Some B) = Ok true <->
   State.toggle_leds A = State.toggle_leds B /\
   State.is_playing A = State.is_playing B /\
   State.repeat A = State.repeat B /\
   State.shuffle A = State.shuffle B /\
   State.show_controls A = State.show_controls B /\
   State.exit A = State.exit B /\
   State.track_id A = State.track_id B /\
   State.volume A = State.volume B /\
   State.is_liked A = State.is_liked B /\
   Z.abs (pa - pb) < 5000 /\
   State.is_dimmed A = State.is_dimmed B).
Proof.
  intros HA HB Hpa Hpb.
  destruct (well_typed_parts A HA) as (Ap & As & Av & _ & At).
  destruct (well_typed_parts B HB) as (Bp & Bs & Bv & _ & Bt).
  destruct (track_id_typed A At) as (i & Hi & Ii).
  destruct (track_id_typed B Bt) as (j & Hj & Ij).
  unfold State.eq. rewrite Hi, Hj, Hpa, Hpb. cbn [bindR State.within_tolerance py_arith num_of].
  rewrite !and_then_true, !Bool.eqb_true_iff.
  rewrite (py_eq_bool _ _ Ap Bp), (py_eq_bool _ _ As Bs),
    (py_eq_int _ _ Av Bv), (py_eq_id _ _ Ii Ij).
  split.
  - intros (H1 & H2 & H3 & H4 & H5 & H6 & H7 & H8 & H9 & H10 & H11).
    repeat split; try assumption; try congruence.
    + apply Z.ltb_lt. assumption.
    + apply Bool.eqb_true_iff. congruence.
  - intros (H1 & H2 & H3 & H4 & H5 & H6 & H7 & H8 & H9 & H10 & H11).
    repeat split; try assumption; try congruence.
    + apply Z.ltb_lt. assumption.
    + f_equal. apply Bool.eqb_true_iff. assumption.
Qed.



Lemma well_typed_set_progress_ms (s : State.t) (p : Z) :
  well_typed s = true -> well_typed (State.set_progress_ms (PInt p) s) = true.
Proof.
  unfold well_typed. cbn. rewrite !Bool.andb_true_iff. tauto.
Qed.














(** C10: the rendering-equality predicate is not transitive.  Three
    snapshots that differ in [progress_ms] only, at 0, 4000 and 8000: the
    first equals the second, the second equals the third, the first does
    not equal the third. *)
Theorem State_eq_not_transitive :
  exists A B C : State.t,
    State.progress_ms A = PInt 0 /\
    B = State.set_progress_ms (PInt 4000) A /\
    C = State.set_progress_ms (PInt 8000) A /\
    well_typed A = true /\
    State.eq A (Some B) = Ok true /\
    State.eq B (Some C) = Ok true /\
    State.eq A (Some C) = Ok false.
Proof.
  exists playing_snapshot,
    (State.set_progress_ms (PInt 4000) playing_snapshot),
    (State.set_progress_ms (PInt 8000) playing_snapshot).
  repeat split.
Qed.

(** ** The dispatch site *)

(** What the dispatch site does with a handler that raises, and with one
    that returns. *)
Lemma dispatch_raise (env : Env) (b : ControlButton) (a a1 : App) (e : exn) :
  on_press b env (emit (pressed_line b) a) = (a1, Raise e) ->
  dispatch env b a = (emit (failed_line e) a1, Ok tt).
Proof.
  intros H. unfold dispatch, bind, print, modify, try_except.
  fold (pressed_line b). rewrite H. reflexivity.
Qed.

Lemma dispatch_return (env : Env) (b : ControlButton) (a a1 : App) :
  on_press b env (emit (pressed_line b) a) = (a1, Ok tt) ->
  dispatch env b a = (a1, Ok tt).
Proof.
  intros H. unfold dispatch, bind, print, modify, try_except.
  fold (pressed_line b). rewrite H. reflexivity.
Qed.

(** No exception leaves the dispatch site. *)
Lemma dispatch_ok (env : Env) (b : ControlButton) (a : App) :
  exists a', dispatch env b a = (a', Ok tt).
Proof.
  destruct (on_press b env (emit (pressed_line b) a)) as [a1 [[]|e]] eqn:H.
  - exists a1. apply dispatch_return, H.
  - exists (emit (failed_line e) a1). apply dispatch_raise, H.
Qed.

(** No exception leaves the scan of the buttons. *)
Lemma scan_ok (env : Env) (bs : list ControlButton) :
  forall a, exists a' bs', scan env bs a = (a', Ok bs').
Proof.
  induction bs as [|b rest IH]; intros a.
  - exists a, []. reflexivity.
  - cbn [scan]. unfold bind at 1, gets at 1.
    destruct (is_pressed env (run_update (state a) b)).
    + destruct (dispatch_ok env (run_update (state a) b) a) as (a' & Hd).
      exists a', (run_update (state a) b :: rest).
      unfold bind. rewrite Hd. reflexivity.
    + destruct (IH a) as (a' & bs' & Hs).
      exists a', (run_update (state a) b :: bs').
      unfold bind. rewrite Hs. reflexivity.
Qed.

Lemma touch_tick_ok (env : Env) (sp : Spotify) :
  exists sp', touch_tick env sp = (sp', Ok tt).
Proof.
  unfold touch_tick.
  destruct (scan_ok env (buttons sp) (app sp)) as (a' & bs' & H).
  rewrite H. eexists. reflexivity.
Qed.

(** A handler of [setup_buttons] that raises has not written to the
    state: in each of them the call that can fail comes before the first
    assignment. *)
Ltac handler_steps :=
  unfold exit_app, toggle_controls, play_pause, next_track, previous_track,
    toggle_shuffle_handler, toggle_repeat_handler, toggle_lights, volume_up,
    volume_down, toggle_like, when, bind, gets, assign, modify, print, lift,
    ret, call, call_leds, py_min, py_max, py_lt, py_arith;
  cbn.

Lemma handler_raise_keeps_state (d : Screen) (b : ControlButton)
    (env : Env) (a a1 : App) (e : exn) :
  In b (setup_buttons d) ->
  on_press b env a = (a1, Raise e) ->
  state a1 = state a.
Proof.
  intros Hin H.
  repeat (destruct Hin as [<-|Hin]; [revert H; handler_steps|]);
    try contradiction.
  - discriminate.
  - destruct (command_result (client env) next); intros H; inversion H;
      reflexivity.
  - destruct (command_result (client env) previous); intros H; inversion H;
      reflexivity.
  - destruct (truthy (State.is_playing (state a))); cbn;
      match goal with |- context [command_result ?c ?x] =>
        destruct (command_result c x) end;
      intros H; inversion H; reflexivity.
  - match goal with |- context [command_result ?c ?x] =>
        destruct (command_result c x) end;
      intros H; inversion H; reflexivity.
  - match goal with |- context [command_result ?c ?x] =>
        destruct (command_result c x) end;
      intros H; inversion H; reflexivity.
  - destruct (leds_result env (negb (State.toggle_leds (state a))));
      intros H; inversion H; reflexivity.
  - destruct (num_of (State.volume (state a))); cbn;
      [|intros H; inversion H; reflexivity].
    match goal with |- context [command_result ?c ?x] =>
        destruct (command_result c x) end;
      intros H; inversion H; reflexivity.
  - destruct (num_of (State.volume (state a))); cbn;
      [|intros H; inversion H; reflexivity].
    match goal with |- context [command_result ?c ?x] =>
        destruct (command_result c x) end;
      intros H; inversion H; reflexivity.
  - destruct (truthy (State.track (state a))); cbn;
      [|intros H; inversion H].
    destruct (py_get (State.track (state a)) "id" PNone); cbn;
      [|intros H; inversion H; reflexivity].
    destruct (State.is_liked (state a)); cbn;
      match goal with |- context [command_result ?c ?x] =>
        destruct (command_result c x) end;
      intros H; inversion H; reflexivity.
  - discriminate.
Qed.

Lemma play_pause_failed (env : Env) (a : App) (e : exn) :
  command_result (client env) (play_pause_command (state a)) = Raise e ->
  play_pause env a
  = (emit (Remote (play_pause_command (state a))) a, Raise e).
Proof.
  unfold play_pause_command. intros H. handler_steps.
  destruct (truthy (State.is_playing (state a))); cbn; rewrite H; reflexivity.
Qed.

Lemma play_pause_returned (env : Env) (a : App) :
  command_result (client env) (play_pause_command (state a)) = Ok tt ->
  play_pause env a
  = (with_state (State.set_last_activity (time env))
       (with_state
          (State.set_is_playing
             (PBool (negb (truthy (State.is_playing (state a))))))
          (emit (Remote (play_pause_command (state a))) a)), Ok tt).
Proof.
  unfold play_pause_command. intros H.
  unfold play_pause, bind, gets, assign, modify, call.
  cbn [state emit].
  destruct (truthy (State.is_playing (state a))) eqn:E; rewrite H;
    cbn [state emit]; rewrite E; reflexivity.
Qed.

(** C2, as stated, fails: nothing is playing, the play button is pressed
    and [play()] raises.  The press is announced, the command is sent, the
    failure is printed and the iteration ends normally, but [is_playing]
    is still [False]: the flag is not flipped. *)
Lemma failed_play_press_not_flipped :
  State.is_playing (state (app controls_shown)) = PBool false /\
  snd (touch_tick press_play_offline controls_shown) = Ok tt /\
  out (app (fst (touch_tick press_play_offline controls_shown)))
  = [Print (Text "Play pressed"); Remote play; failed_line RemoteError] /\
  State.is_playing
    (state (app (fst (touch_tick press_play_offline controls_shown))))
  = PBool false /\
  State.is_playing
    (state (app (fst (touch_tick press_play_offline controls_shown))))
  <> PBool (negb (truthy (State.is_playing (state (app controls_shown))))).
Proof.
  repeat split. intros H. discriminate H.
Qed.

(** C2, amended: every handler of [setup_buttons] sends its command
    first and writes to the state only after the command has returned.
    When the handler raises, the dispatch site catches the exception and
    prints it, the state is what it was before the press, and the input
    loop goes on to its next iteration; for play/pause, a command that
    raises leaves [is_playing] as it was, and a command that returns flips
    it. *)
Theorem on_press_failure_keeps_state :
  (forall (d : Screen) (b : ControlButton) (env : Env) (a a1 : App) (e : exn),
      In b (setup_buttons d) ->
      on_press b env (emit (pressed_line b) a) = (a1, Raise e) ->
      dispatch env b a = (emit (failed_line e) a1, Ok tt) /\
      state a1 = state a) /\
  (forall (b : ControlButton) (env : Env) (a : App) (e : exn),
      on_press b = play_pause ->
      command_result (client env) (play_pause_command (state a)) = Raise e ->
      exists a',
        dispatch env b a = (a', Ok tt) /\
        state a' = state a /\
        out a' = (out a ++ [pressed_line b;
                             Remote (play_pause_command (state a));
                             failed_line e])%list) /\
  (forall (b : ControlButton) (env : Env) (a : App),
      on_press b = play_pause ->
      command_result (client env) (play_pause_command (state a)) = Ok tt ->
      exists a',
        dispatch env b a = (a', Ok tt) /\
        state a' = State.set_last_activity (time env)
                     (State.set_is_playing
                        (PBool (negb (truthy (State.is_playing (state a)))))
                        (state a)) /\
        out a' = (out a ++ [pressed_line b;
                             Remote (play_pause_command (state a))])%list) /\
  (forall (env : Env) (later : list Env) (sp : Spotify),
      State.exit (state (app sp)) = false ->
      exists sp',
        touch_tick env sp = (sp', Ok tt) /\
        touch_handler_loop (env :: later) sp = touch_handler_loop later sp').
Proof.
  split; [|split; [|split]].
  - intros d b env a a1 e Hin H. split.
    + apply dispatch_raise, H.
    + apply (handler_raise_keeps_state d b env _ a1 e Hin H).
  - intros b env a e Hb H.
    eexists. split; [|split].
    + apply dispatch_raise. rewrite Hb.
      apply (play_pause_failed env (emit (pressed_line b) a) e H).
    + reflexivity.
    + cbn. rewrite <- !app_assoc. reflexivity.
  - intros b env a Hb H.
    eexists. split; [|split].
    + apply dispatch_return. rewrite Hb.
      apply (play_pause_returned env (emit (pressed_line b) a) H).
    + reflexivity.
    + cbn. rewrite <- !app_assoc. reflexivity.
  - intros env later sp Hexit.
    destruct (touch_tick_ok env sp) as (sp' & H).
    exists sp'. split; [exact H|].
    cbn [touch_handler_loop]. rewrite Hexit, H. reflexivity.
Qed.

Lemma on_press_failure_keeps_state_witness :
  (dispatch press_play_offline play_button (app controls_shown)
   = (emit (failed_line RemoteError)
        (emit (Remote play) (emit (pressed_line play_button)
                               (app controls_shown))), Ok tt) /\
   state (emit (Remote play) (emit (pressed_line play_button)
                                (app controls_shown)))
   = state (app controls_shown)) /\
  (exists a',
     dispatch press_play_offline play_button (app controls_shown) = (a', Ok tt) /\
     state a' = state (app controls_shown) /\
     out a' = (out (app controls_shown) ++
               [pressed_line play_button;
                Remote (play_pause_command (state (app controls_shown)));
                failed_line RemoteError])%list).
Proof.
  split.
  - apply (proj1 on_press_failure_keeps_state presto_screen play_button
             press_play_offline (app controls_shown)).
    + simpl. tauto.
    + reflexivity.
  - apply (proj1 (proj2 on_press_failure_keeps_state) play_button
             press_play_offline (app controls_shown) RemoteError);
      reflexivity.
Defined.

(** ** Hit testing in declaration order *)

Lemma scan_none_pressed (env : Env) (bs : list ControlButton) (a : App) :
  forallb (fun b => negb (hit env (state a) b)) bs = true ->
  scan env bs a = (a, Ok (map (run_update (state a)) bs)).
Proof.
  induction bs as [|b rest IH]; intros H.
  - reflexivity.
  - cbn [forallb] in H. apply Bool.andb_true_iff in H. destruct H as [Hb Hr].
    apply Bool.negb_true_iff in Hb. unfold hit in Hb.
    cbn [scan map]. unfold bind at 1, gets at 1. rewrite Hb.
    unfold bind. rewrite (IH Hr). reflexivity.
Qed.

Lemma scan_first_pressed (env : Env) (before after : list ControlButton)
    (b : ControlButton) (a : App) :
  forallb (fun x => negb (hit env (state a) x)) before = true ->
  hit env (state a) b = true ->
  scan env (before ++ b :: after) a
  = (fst (dispatch env (run_update (state a) b) a),
     Ok (map (run_update (state a)) before ++ run_update (state a) b :: after)%list).
Proof.
  induction before as [|x rest IH]; intros Hbefore Hb.
  - cbn [List.app scan map]. unfold bind at 1, gets at 1.
    unfold hit in Hb. rewrite Hb.
    destruct (dispatch_ok env (run_update (state a) b) a) as (a' & Hd).
    unfold bind. rewrite Hd. reflexivity.
  - cbn [forallb] in Hbefore. apply Bool.andb_true_iff in Hbefore.
    destruct Hbefore as [Hx Hr]. apply Bool.negb_true_iff in Hx.
    unfold hit in Hx.
    change ((x :: rest) ++ b :: after)%list with (x :: (rest ++ b :: after))%list.
    cbn [scan map]. unfold bind at 1, gets at 1. rewrite Hx.
    unfold bind. rewrite (IH Hr Hb). reflexivity.
Qed.




(** ** What fetch_state returns *)


(** ** The poll of the display loop *)

Lemma poll_block_not_due (due_at fetched_at : Z) (cl : Client) (a : App) :
  poll_due due_at (State.latest_fetch (state a)) = false ->
  poll_block due_at fetched_at cl a = (a, Ok tt).
Proof.
  intros H. unfold poll_block, bind, gets, when. rewrite H. reflexivity.
Qed.

(** When [fetch_state] returns [None] the poll records the time of the
    fetch and the events of the call, and nothing else. *)
Lemma poll_block_none (due_at fetched_at : Z) (cl : Client) (a : App)
    (events : list Event) :
  poll_due due_at (State.latest_fetch (state a)) = true ->
  fetch_state cl = (events, Ok None) ->
  poll_block due_at fetched_at cl a
  = ({| state := State.set_latest_fetch (Some fetched_at) (state a);
        session_device_id := session_device_id a;
        out := out a ++ events |}, Ok tt).
Proof.
  intros Hdue Hf.
  unfold poll_block, bind, gets, when, assign, modify, run_fetch_state.
  rewrite Hdue, Hf. reflexivity.
Qed.

(** When [fetch_state] returns a tuple the poll unpacks it into the
    state and adopts a truthy device id. *)
Lemma poll_block_some (due_at fetched_at : Z) (cl : Client) (a : App)
    (events : list Event) (r : Fetched.t) :
  poll_due due_at (State.latest_fetch (state a)) = true ->
  fetch_state cl = (events, Ok (Some r)) ->
  let s' := state (fst (poll_block due_at fetched_at cl a)) in
  session_device_id (fst (poll_block due_at fetched_at cl a))
  = (if truthy (Fetched.device_id r) then Fetched.device_id r
     else session_device_id a) /\
  State.track s' = Fetched.track r /\
  State.is_playing s' = Fetched.is_playing r /\
  State.shuffle s' = Fetched.shuffle r /\
  State.repeat s' = Fetched.repeat r /\
  State.volume s' = Fetched.volume r /\
  State.progress_ms s' = Fetched.progress_ms r /\
  State.duration_ms s' = Fetched.duration_ms r /\
  State.latest_fetch s' = Some fetched_at.
Proof.
  intros Hdue Hf.
  unfold poll_block, bind, gets, when, assign, modify, run_fetch_state,
    try_except, call_check_saved_track, lift, ret, print.
  rewrite Hdue, Hf. cbn -[truthy py_get].
  destruct (truthy (Fetched.device_id r));
    cbn -[truthy py_get];
    (destruct (truthy (Fetched.track r)); cbn -[truthy py_get];
     [destruct (py_get (Fetched.track r) "id" PNone) as [i|e];
      cbn -[truthy py_get];
      [destruct (check_saved_track_result cl i)|]|]);
    cbn; repeat split.
Qed.

(** ** The two remote calls of fetch_state *)

(** A current-playback call that yields no item assigns nothing. *)
Lemma fetch_current_no_item (cl : Client) :
  current_item (current_playing_result cl) = None ->
  exists events,
    fetch_current cl Locals.init
    = (untouched (Remote current_playing :: events), Ok tt).
Proof.
  unfold current_item, fetch_current, try_except, query, bind, lift, when,
    ret, say, modify.
  destruct (current_playing_result cl) as [resp|e]; intros H.
  - destruct (truthy resp) eqn:Hr.
    + destruct (py_get resp "item" PNone) as [item|e].
      * destruct (truthy item) eqn:Hi; [discriminate H|].
        exists []. reflexivity.
      * eexists. reflexivity.
    + rewrite Hr. exists []. reflexivity.
  - eexists. reflexivity.
Qed.

(** [d["items"]] agrees with [d.get("items")] once the latter is truthy. *)
Lemma getitem_of_truthy_get (resp v : pyval) (k : string) :
  py_get resp k PNone = Ok v -> truthy v = true -> py_getitem resp k = Ok v.
Proof.
  destruct resp; try discriminate. cbn.
  destruct (lookup k d); intros H Ht; inversion H; subst.
  - reflexivity.
  - discriminate Ht.
Qed.

(** After a recently-played call that yields a track only the track and
    its duration are assigned. *)
Lemma fetch_recent_track (cl : Client) (events : list Event) (track : pyval) :
  recent_track (recently_played_result cl) = Some track ->
  truthy track = true /\
  exists events',
    fetch_recent cl (untouched events)
    = (Locals.mk track (PBool false) (PBool false) false PNone (PInt 50)
         (PInt 0) (duration_of track)
         (events ++ Remote recently_played :: events'), Ok tt).
Proof.
  unfold recent_track.
  destruct (recently_played_result cl) as [resp|e] eqn:Hc; [|discriminate].
  destruct (truthy resp) eqn:Hr; [|discriminate].
  destruct (py_get resp "items" PNone) as [items|e] eqn:Hg; [|discriminate].
  destruct (truthy items) eqn:Hi; [|discriminate].
  destruct (py_getitem_int items 0) as [first|e] eqn:H0; [|discriminate].
  destruct (py_getitem first "track") as [tr|e] eqn:Htr; [|discriminate].
  destruct (truthy tr) eqn:Ht; [|discriminate].
  intros H. inversion H; subst tr. split; [exact Ht|].
  unfold fetch_recent, try_except, query, bind. rewrite Hc, Hr.
  unfold lift. rewrite Hg. unfold when. rewrite Hi.
  rewrite (getitem_of_truthy_get resp items "items" Hg Hi), H0, Htr.
  unfold gets, say, modify, duration_of, untouched.
  cbn -[py_get py_concat].
  destruct (py_get track "duration_ms" (PInt 0)) as [dur|e1].
  - destruct (py_get track "name" PNone) as [nm|e2].
    + destruct (py_concat "Got recently playing track: " nm) as [line|e3];
        unfold Locals.emit, Locals.set_duration_ms, Locals.set_current_track;
        cbn; eexists; rewrite <- app_assoc; reflexivity.
    + unfold Locals.emit, Locals.set_duration_ms, Locals.set_current_track.
      cbn. eexists. rewrite <- app_assoc. reflexivity.
  - unfold Locals.emit, Locals.set_duration_ms, Locals.set_current_track.
    cbn. eexists. rewrite <- app_assoc. reflexivity.
Qed.

(** After a recently-played call that yields no track the local
    [current_track] is still falsy. *)
Lemma fetch_recent_no_track (cl : Client) (events : list Event) :
  recent_track (recently_played_result cl) = None ->
  exists l',
    fetch_recent cl (untouched events) = (l', Ok tt) /\
    truthy (Locals.current_track l') = false /\
    exists events',
      Locals.out l' = (events ++ Remote recently_played :: events')%list.
Proof.
  unfold recent_track, fetch_recent, try_except, query, bind, lift, when.
  destruct (recently_played_result cl) as [resp|e]; intros H;
    [|eexists; split; [reflexivity|split; [reflexivity|]];
      cbn; eexists; rewrite <- app_assoc; reflexivity].
  destruct (truthy resp) eqn:Hr;
    [|unfold ret; cbn beta iota; rewrite Hr; eexists;
      split; [reflexivity|split; [reflexivity|]]; exists []; reflexivity].
  destruct (py_get resp "items" PNone) as [items|e] eqn:Hg;
    [|eexists; split; [reflexivity|split; [reflexivity|]];
      cbn; eexists; rewrite <- app_assoc; reflexivity].
  destruct (truthy items) eqn:Hi;
    [|eexists; split; [reflexivity|split; [reflexivity|]];
      exists []; reflexivity].
  rewrite (getitem_of_truthy_get resp items "items" Hg Hi).
  destruct (py_getitem_int items 0) as [first|e];
    [|eexists; split; [reflexivity|split; [reflexivity|]];
      cbn; eexists; rewrite <- app_assoc; reflexivity].
  destruct (py_getitem first "track") as [track|e];
    [|eexists; split; [reflexivity|split; [reflexivity|]];
      cbn; eexists; rewrite <- app_assoc; reflexivity].
  destruct (truthy track) eqn:Ht; [discriminate H|].
  unfold gets, say, modify, ret. cbn -[py_get py_concat truthy].
  destruct (py_get track "duration_ms" (PInt 0)) as [dur|e1];
    [destruct (py_get track "name" PNone) as [nm|e2];
     [destruct (py_concat "Got recently playing track: " nm) as [line|e3]|]|];
    (eexists; split; [reflexivity|split; [exact Ht|]];
     cbn; eexists; rewrite <- app_assoc; reflexivity).
Qed.

Lemma fetch_state_fallback (cl : Client) (track : pyval) :
  current_item (current_playing_result cl) = None ->
  recent_track (recently_played_result cl) = Some track ->
  In (Remote recently_played) (fst (fetch_state cl)) /\
  snd (fetch_state cl) = Ok (Some (recent_playback track)).
Proof.
  intros Hc Hr.
  destruct (fetch_current_no_item cl Hc) as (ev1 & H1).
  destruct (fetch_recent_track cl (Remote current_playing :: ev1) track Hr)
    as (Ht & ev2 & H2).
  unfold fetch_state, fetch_state_body, bind. rewrite H1.
  unfold gets, when. cbn [untouched Locals.current_track truthy negb].
  rewrite H2. cbn [Locals.current_track]. rewrite Ht. cbn.
  split; [|reflexivity].
  right. apply in_or_app. right. left. reflexivity.
Qed.

Lemma fetch_state_no_track (cl : Client) :
  current_item (current_playing_result cl) = None ->
  recent_track (recently_played_result cl) = None ->
  In (Remote recently_played) (fst (fetch_state cl)) /\
  snd (fetch_state cl) = Ok None.
Proof.
  intros Hc Hr.
  destruct (fetch_current_no_item cl Hc) as (ev1 & H1).
  destruct (fetch_recent_no_track cl (Remote current_playing :: ev1) Hr)
    as (l' & H2 & Ht & ev2 & Hout).
  unfold fetch_state, fetch_state_body, bind. rewrite H1.
  unfold gets, when. cbn [untouched Locals.current_track truthy negb].
  rewrite H2. rewrite Ht. cbn. rewrite Hout.
  split; [|reflexivity].
  right. apply in_or_app. right. left. reflexivity.
Qed.




(** C4: when the current-playback call raises or yields no item,
    [fetch_state] goes on to call recently-played; and when that call
    returns a response whose first entry carries a track, the tuple has
    that track, the duration of that track, and every other field as
    initialised: no device id, not playing, no shuffle, no repeat, volume
    50, progress 0. *)
Theorem fetch_state_recently_played
    (cl : Client) (r entry : list (string * pyval)) (entries : list pyval)
    (track : pyval) :
  current_item (current_playing_result cl) = None ->
  In (Remote recently_played) (fst (fetch_state cl)) /\
  (recently_played_result cl = Ok (PDict r) ->
   lookup "items" r = Some (PList (PDict entry :: entries)) ->
   lookup "track" entry = Some track ->
   truthy track = true ->
   snd (fetch_state cl) = Ok (Some (recent_playback track)) /\
   recent_playback track
   = Fetched.mk PNone track (PBool false) (PBool false) false (PInt 50)
       (PInt 0) (duration_of track)).
Proof.
  intros Hc. split.
  - destruct (recent_track (recently_played_result cl)) as [tr|] eqn:Hr.
    + apply (fetch_state_fallback cl tr Hc Hr).
    + apply (fetch_state_no_track cl Hc Hr).
  - intros Hrp Hitems Htrack Ht. split; [|reflexivity].
    apply (fetch_state_fallback cl track Hc).
    rewrite Hrp. unfold recent_track, py_get. rewrite Hitems.
    assert (Hr : truthy (PDict r) = true)
      by (destruct r; [discriminate|reflexivity]).
    rewrite Hr. cbn -[lookup]. rewrite Htrack, Ht. reflexivity.
Qed.

Lemma fetch_state_recently_played_witness :
  (In (Remote recently_played) (fst (fetch_state idle_client)) /\
   snd (fetch_state idle_client) = Ok (Some (recent_playback sample_track))) /\
  In (Remote recently_played) (fst (fetch_state failing_client)).
Proof.
  split.
  - destruct (fetch_state_recently_played idle_client sample_history
                [("track", sample_track)] [] sample_track eq_refl)
      as (H1 & H2).
    split; [exact H1|].
    apply H2; reflexivity.
  - apply (fetch_state_recently_played failing_client [] [] [] PNone eq_refl).
Defined.

(** C5: when neither call yields a track [fetch_state] returns [None],
    and a poll of the display loop that gets [None] leaves the track,
    [is_playing], [shuffle], [repeat], [volume], [progress_ms],
    [duration_ms], [is_liked] and the session's device id as they were. *)
Theorem fetch_state_no_track_keeps_state
    (cl : Client) (due_at fetched_at : Z) (a : App) :
  current_item (current_playing_result cl) = None ->
  recent_track (recently_played_result cl) = None ->
  snd (fetch_state cl) = Ok None /\
  snd (poll_block due_at fetched_at cl a) = Ok tt /\
  State.track (state (fst (poll_block due_at fetched_at cl a)))
  = State.track (state a) /\
  State.is_playing (state (fst (poll_block due_at fetched_at cl a)))
  = State.is_playing (state a) /\
  State.shuffle (state (fst (poll_block due_at fetched_at cl a)))
  = State.shuffle (state a) /\
  State.repeat (state (fst (poll_block due_at fetched_at cl a)))
  = State.repeat (state a) /\
  State.volume (state (fst (poll_block due_at fetched_at cl a)))
  = State.volume (state a) /\
  State.progress_ms (state (fst (poll_block due_at fetched_at cl a)))
  = State.progress_ms (state a) /\
  State.duration_ms (state (fst (poll_block due_at fetched_at cl a)))
  = State.duration_ms (state a) /\
  State.is_liked (state (fst (poll_block due_at fetched_at cl a)))
  = State.is_liked (state a) /\
  session_device_id (fst (poll_block due_at fetched_at cl a))
  = session_device_id a.
Proof.
  intros Hc Hr.
  destruct (fetch_state_no_track cl Hc Hr) as (_ & Hf).
  split; [exact Hf|].
  destruct (poll_due due_at (State.latest_fetch (state a))) eqn:Hdue.
  - destruct (fetch_state cl) as [events res] eqn:Hfs. cbn [snd] in Hf.
    subst res.
    rewrite (poll_block_none due_at fetched_at cl a events Hdue Hfs).
    repeat split.
  - rewrite (poll_block_not_due due_at fetched_at cl a Hdue).
    repeat split.
Qed.

Lemma fetch_state_no_track_keeps_state_witness :
  snd (fetch_state silent_client) = Ok None /\
  State.track (state (fst (poll_block 100 100 silent_client showing_track)))
  = sample_track /\
  snd (fetch_state failing_client) = Ok None.
Proof.
  destruct (fetch_state_no_track_keeps_state silent_client 100 100
              showing_track eq_refl eq_refl) as (H1 & _ & H2 & _).
  destruct (fetch_state_no_track_keeps_state failing_client 100 100
              showing_track eq_refl eq_refl) as (H3 & _).
  split; [exact H1|split; [exact H2|exact H3]].
Defined.

(** The combinators of statements keep what their parts keep. *)
Section Keeps.

Context {S : Type} (R : S -> S -> Prop).
Hypothesis R_refl : forall s, R s s.
Hypothesis R_trans : forall s1 s2 s3, R s1 s2 -> R s2 s3 -> R s1 s3.

Lemma keeps_ret {A : Type} (x : A) : keeps R (ret x).
Proof. intros s. apply R_refl. Qed.

Lemma keeps_lift {A : Type} (r : result A) : keeps R (lift r).
Proof. intros s. apply R_refl. Qed.

Lemma keeps_gets {A : Type} (f : S -> A) : keeps R (gets f).
Proof. intros s. apply R_refl. Qed.

Lemma keeps_modify (f : S -> S) : (forall s, R s (f s)) -> keeps R (modify f).
Proof. intros H s. apply H. Qed.

Lemma keeps_bind {A B : Type} (c : M S A) (k : A -> M S B) :
  keeps R c -> (forall x, keeps R (k x)) -> keeps R (bind c k).
Proof.
  intros Hc Hk s. unfold bind. specialize (Hc s).
  destruct (c s) as [s' [x|e]]; cbn [fst] in *.
  - apply (R_trans _ _ _ Hc (Hk x s')).
  - exact Hc.
Qed.

Lemma keeps_try_except {A : Type} (body : M S A) (handler : exn -> M S A) :
  keeps R body -> (forall e, keeps R (handler e)) ->
  keeps R (try_except body handler).
Proof.
  intros Hb Hh s. unfold try_except. specialize (Hb s).
  destruct (body s) as [s' [x|e]]; cbn [fst] in *.
  - exact Hb.
  - apply (R_trans _ _ _ Hb (Hh e s')).
Qed.

Lemma keeps_when (c : bool) (body : M S unit) :
  keeps R body -> keeps R (when c body).
Proof. intros H. destruct c; [exact H|apply keeps_ret]. Qed.

Lemma keeps_if {A : Type} (c : bool) (x y : M S A) :
  keeps R x -> keeps R y -> keeps R (if c then x else y).
Proof. intros Hx Hy. destruct c; assumption. Qed.

End Keeps.

Ltac keeps_step R R_refl R_trans :=
  lazymatch goal with
  | |- keeps _ (bind _ _) => apply (keeps_bind R R_trans); [|intros ?]
  | |- keeps _ (try_except _ _) =>
      apply (keeps_try_except R R_trans); [|intros ?]
  | |- keeps _ (when _ _) => apply (keeps_when R R_refl)
  | |- keeps _ (if _ then _ else _) => apply (keeps_if R)
  | |- keeps _ (ret _) => apply (keeps_ret R R_refl)
  | |- keeps _ (lift _) => apply (keeps_lift R R_refl)
  | |- keeps _ (gets _) => apply (keeps_gets R R_refl)
  | |- keeps _ (modify _) => apply (keeps_modify R); intros ?
  | |- keeps _ (match ?x with Some _ => _ | None => _ end) => destruct x
  end.

Ltac keeps_steps R R_refl R_trans := repeat keeps_step R R_refl R_trans.

(** ** The time of the last fetch *)




(** ** The progress estimate *)





(** ** The dimmer *)

Lemma backlight_calls_app (xs ys : list Event) :
  backlight_calls (xs ++ ys) = (backlight_calls xs ++ backlight_calls ys)%list.
Proof.
  induction xs as [|x xs IH]; [reflexivity|].
  destruct x; cbn; rewrite IH; reflexivity.
Qed.














(** * Further properties *)

(** ** State.copy *)

(** What a copy that was returned holds. *)
Lemma copy_fields (now : Z) (s c : State.t) :
  State.copy now s = Ok c ->
  State.toggle_leds c = State.toggle_leds s /\
  State.is_playing c = State.is_playing s /\
  State.repeat c = State.repeat s /\
  State.shuffle c = State.shuffle s /\
  State.show_controls c = State.show_controls s /\
  State.exit c = State.exit s /\
  State.volume c = State.volume s /\
  State.is_liked c = State.is_liked s /\
  State.progress_ms c = State.progress_ms s /\
  State.duration_ms c = State.duration_ms s /\
  State.last_activity c = State.last_activity s /\
  State.is_dimmed c = State.is_dimmed s /\
  State.latest_fetch c = None /\
  (if truthy (State.track s)
   then exists i, py_getitem (State.track s) "id" = Ok i /\
                  State.track c = PDict [("id", i)]
   else State.track c = PNone).
Proof.
  unfold State.copy. intros H.
  destruct (truthy (State.track s)).
  - destruct (py_getitem (State.track s) "id") as [i|e]; [|discriminate H].
    cbn in H. inversion H; subst c. cbn.
    repeat split. exists i. split; reflexivity.
  - cbn in H. inversion H; subst c. cbn. repeat split.
Qed.

(** X1: a copy that [State.copy] returns compares equal to the state it
    was taken from, in both directions, whatever the time of the copy; it
    is a snapshot again, and it does not carry [latest_fetch]. *)
Theorem copy_compares_equal (now : Z) (s c : State.t) :
  well_typed s = true ->
  State.copy now s = Ok c ->
  State.eq s (Some c) = Ok true /\
  State.eq c (Some s) = Ok true /\
  well_typed c = true /\
  State.latest_fetch c = None.
Proof.
  intros Hs Hc.
  destruct (copy_fields now s c Hc)
    as (H1 & H2 & H3 & H4 & H5 & H6 & H7 & H8 & H9 & H10 & H11 & H12 & H13 & Ht).
  destruct (well_typed_parts s Hs) as (Tp & Ts & Tv & Ti & Tt).
  assert (Hid : State.track_id c = State.track_id s /\
                is_track (State.track c) = true).
  { unfold State.track_id.
    destruct (truthy (State.track s)) eqn:Htruthy.
    - destruct Ht as (i & Hi & Hc').
      rewrite Hc'. cbn.
      destruct (State.track s) as [| | | | |d]; try discriminate Hi.
      cbn in Hi, Tt |- *.
      destruct (lookup "id" d) as [j|]; [|discriminate Hi].
      inversion Hi; subst j. split; [reflexivity|exact Tt].
    - rewrite Ht. split; reflexivity. }
  destruct Hid as (Hid & Htc).
  assert (Hc_typed : well_typed c = true).
  { unfold well_typed. rewrite H2, H4, H7, H9, Tp, Ts, Tv, Ti, Htc.
    reflexivity. }
  destruct (State.progress_ms s) as [| |p| | |] eqn:Hp; try discriminate Ti.
  assert (Hd : Z.abs (p - p) < 5000) by (rewrite Z.sub_diag; reflexivity).
  split; [|split; [|split; [exact Hc_typed|exact H13]]].
  - apply (eq_snapshots s c p p Hs Hc_typed Hp); [congruence|].
    repeat split; try (symmetry; assumption); assumption.
  - apply (eq_snapshots c s p p Hc_typed Hs); [congruence|exact Hp|].
    repeat split; assumption.
Qed.

Lemma copy_compares_equal_witness :
  State.eq (state showing_track)
    (Some (State.set_latest_fetch None
             (State.set_track (PDict [("id", PStr "4uLU6hMCjMI75M1A2tKUQC")])
                (state showing_track)))) = Ok true.
Proof.
  apply (copy_compares_equal 7 (state showing_track)
           (State.set_latest_fetch None
              (State.set_track (PDict [("id", PStr "4uLU6hMCjMI75M1A2tKUQC")])
                 (state showing_track)))); reflexivity.
Defined.

(** X2: [State.copy] raises [KeyError] on a track that is a non-empty
    dict without an ["id"], although [State.__eq__] accepts such a track
    and reads its id as [None]. *)
Theorem copy_raises_without_id (now : Z) (s : State.t)
    (d : list (string * pyval)) :
  State.track s = PDict d ->
  d <> [] ->
  lookup "id" d = None ->
  State.copy now s = Raise KeyError /\ State.track_id s = Ok PNone.
Proof.
  intros Ht Hd Hid. unfold State.copy, State.track_id. rewrite Ht.
  destruct d as [|p d']; [contradiction|].
  cbn [truthy py_getitem py_get]. rewrite Hid. split; reflexivity.
Qed.

Lemma copy_raises_without_id_witness :
  State.copy 7 (State.set_track (PDict [("name", PStr "Intro")]) (State.init 0))
  = Raise KeyError /\
  State.track_id (State.set_track (PDict [("name", PStr "Intro")]) (State.init 0))
  = Ok PNone.
Proof.
  apply (copy_raises_without_id 7 _ [("name", PStr "Intro")]).
  - reflexivity.
  - discriminate.
  - reflexivity.
Defined.

(** ** fetch_state: what it calls and what it lets out *)

Lemma remote_calls_app (xs ys : list Event) :
  remote_calls (xs ++ ys) = (remote_calls xs ++ remote_calls ys)%list.
Proof.
  induction xs as [|x xs IH]; [reflexivity|].
  destruct x; cbn; rewrite IH; reflexivity.
Qed.

Section Returns.

Context {S : Type}.

Lemma returns_ret {A : Type} (x : A) : returns (ret (S := S) x).
Proof. intros s. exists s, x. reflexivity. Qed.

Lemma returns_gets {A : Type} (f : S -> A) : returns (gets f).
Proof. intros s. exists s, (f s). reflexivity. Qed.

Lemma returns_modify (f : S -> S) : returns (modify f).
Proof. intros s. exists (f s), tt. reflexivity. Qed.

Lemma returns_bind {A B : Type} (c : M S A) (k : A -> M S B) :
  returns c -> (forall x, returns (k x)) -> returns (bind c k).
Proof.
  intros Hc Hk s. unfold bind.
  destruct (Hc s) as (s1 & x & H1). rewrite H1. apply Hk.
Qed.

Lemma returns_try_except {A : Type} (body : M S A) (handler : exn -> M S A) :
  (forall e, returns (handler e)) -> returns (try_except body handler).
Proof.
  intros Hh s. unfold try_except.
  destruct (body s) as [s1 [x|e]].
  - exists s1, x. reflexivity.
  - apply Hh.
Qed.

Lemma returns_when (c : bool) (body : M S unit) :
  returns body -> returns (when c body).
Proof. intros H. destruct c; [exact H|apply returns_ret]. Qed.

End Returns.

Lemma fetch_current_returns (cl : Client) : returns (fetch_current cl).
Proof.
  unfold fetch_current. apply returns_try_except.
  intros e. unfold say. apply returns_modify.
Qed.

Lemma fetch_recent_returns (cl : Client) : returns (fetch_recent cl).
Proof.
  unfold fetch_recent. apply returns_try_except.
  intros e. unfold say. apply returns_modify.
Qed.

Lemma fetch_state_body_returns (cl : Client) : returns (fetch_state_body cl).
Proof.
  unfold fetch_state_body.
  apply returns_bind; [apply fetch_current_returns|intros _].
  apply returns_bind; [apply returns_gets|intros ct].
  apply returns_bind; [apply returns_when, fetch_recent_returns|intros _].
  apply returns_bind; [apply returns_gets|intros l].
  destruct (negb (truthy (Locals.current_track l))); apply returns_ret.
Qed.

Lemma fetch_state_track_truthy (cl : Client) (t : Fetched.t) :
  snd (fetch_state cl) = Ok (Some t) -> truthy (Fetched.track t) = true.
Proof.
  unfold fetch_state, fetch_state_body, bind.
  destruct (fetch_current cl Locals.init) as [l1 [[]|e]];
    [|intros H; discriminate H].
  unfold gets at 1.
  destruct (when (negb (truthy (Locals.current_track l1)))
              (fetch_recent cl) l1) as [l2 [[]|e]];
    [|intros H; discriminate H].
  unfold gets, ret.
  destruct (truthy (Locals.current_track l2)) eqn:Ht; cbn.
  - intros H. inversion H; subst t. exact Ht.
  - intros H. discriminate H.
Qed.

(** X3: no exception leaves [fetch_state], whatever the two calls answer
    or raise; and a tuple it returns always carries a truthy track. *)
Theorem fetch_state_never_raises (cl : Client) :
  (exists r, snd (fetch_state cl) = Ok r) /\
  (forall t, snd (fetch_state cl) = Ok (Some t) ->
             truthy (Fetched.track t) = true).
Proof.
  split.
  - destruct (fetch_state_body_returns cl Locals.init) as (l & r & H).
    exists r. unfold fetch_state. rewrite H. reflexivity.
  - apply fetch_state_track_truthy.
Qed.

Lemma fetch_state_never_raises_witness :
  truthy (Fetched.track
            (current_playback sample_playback sample_device sample_track
               (PStr "5fbb3ba6aa454b5534c4ba43a8c7e8e45a63ad0e"))) = true.
Proof.
  apply (proj2 (fetch_state_never_raises online_client)). reflexivity.
Defined.

Lemma same_track_and_calls_refl (l : Locals.t) : same_track_and_calls l l.
Proof. split; reflexivity. Qed.

Lemma same_track_and_calls_trans (l1 l2 l3 : Locals.t) :
  same_track_and_calls l1 l2 -> same_track_and_calls l2 l3 ->
  same_track_and_calls l1 l3.
Proof. unfold same_track_and_calls. intros (H1 & H2) (H3 & H4). split; congruence. Qed.

Lemma say_same_track_and_calls (m : Message) (l : Locals.t) :
  same_track_and_calls l (Locals.emit (Print m) l).
Proof.
  split; [reflexivity|]. cbn. rewrite remote_calls_app, app_nil_r. reflexivity.
Qed.

Ltac same_track_and_calls_steps :=
  unfold say;
  keeps_steps same_track_and_calls same_track_and_calls_refl
    same_track_and_calls_trans;
  try apply say_same_track_and_calls;
  try (split; reflexivity).

(** With an item in the answer, the first [try] block assigns it to
    [current_track] and calls nothing but current-playing. *)
Lemma fetch_current_item (cl : Client) (item : pyval) :
  current_item (current_playing_result cl) = Some item ->
  exists l,
    fetch_current cl Locals.init = (l, Ok tt) /\
    Locals.current_track l = item /\
    truthy item = true /\
    remote_calls (Locals.out l) = [current_playing].
Proof.
  unfold current_item.
  destruct (current_playing_result cl) as [resp|e] eqn:Hc; [|discriminate].
  destruct (truthy resp) eqn:Hr; [|discriminate].
  destruct (py_get resp "item" PNone) as [it|e] eqn:Hg; [|discriminate].
  destruct (truthy it) eqn:Hi; [|discriminate].
  intros H. inversion H; subst it.
  unfold fetch_current, try_except.
  unfold bind at 1, query at 1. rewrite Hc.
  unfold bind at 1. rewrite Hr. unfold lift at 1. rewrite Hg.
  unfold when. rewrite Hi.
  unfold bind at 1, lift at 1.
  rewrite (getitem_of_truthy_get resp item "item" Hg Hi).
  unfold bind at 1, modify at 1.
  match goal with
  | |- context [?rest (Locals.set_current_track item ?l0)] =>
      assert (Hk : keeps same_track_and_calls rest)
        by same_track_and_calls_steps;
      specialize (Hk (Locals.set_current_track item l0));
      destruct (rest (Locals.set_current_track item l0)) as [l1 [[]|e]]
  end; destruct Hk as (Ht & Hcalls); cbn in Ht, Hcalls.
  - exists l1. repeat split; assumption.
  - eexists. split; [reflexivity|]. cbn.
    rewrite remote_calls_app, app_nil_r. repeat split; assumption.
Qed.

Lemma same_calls_refl (l : Locals.t) : same_calls l l.
Proof. reflexivity. Qed.

Lemma same_calls_trans (l1 l2 l3 : Locals.t) :
  same_calls l1 l2 -> same_calls l2 l3 -> same_calls l1 l3.
Proof. unfold same_calls. congruence. Qed.

Lemma say_same_calls (m : Message) (l : Locals.t) :
  same_calls l (Locals.emit (Print m) l).
Proof.
  unfold same_calls. cbn. rewrite remote_calls_app, app_nil_r. reflexivity.
Qed.

Ltac same_calls_steps :=
  unfold say;
  keeps_steps same_calls same_calls_refl same_calls_trans;
  try apply say_same_calls;
  try reflexivity.

(** Each [try] block makes one call, its own. *)
Lemma fetch_recent_calls (cl : Client) (l : Locals.t) :
  remote_calls (Locals.out (fst (fetch_recent cl l)))
  = (remote_calls (Locals.out l) ++ [recently_played])%list.
Proof.
  unfold fetch_recent, try_except.
  unfold bind at 1, query at 1.
  destruct (recently_played_result cl) as [resp|e].
  - match goal with
    | |- context [?rest (Locals.emit (Remote recently_played) l)] =>
        assert (Hk : keeps same_calls rest) by same_calls_steps;
        specialize (Hk (Locals.emit (Remote recently_played) l));
        destruct (rest (Locals.emit (Remote recently_played) l))
          as [l1 [[]|e]]
    end; unfold same_calls in Hk; cbn in Hk |- *;
      rewrite ?remote_calls_app, ?app_nil_r in *; cbn in *;
      rewrite ?app_nil_r; exact Hk.
  - cbn. rewrite !remote_calls_app. cbn. rewrite app_nil_r. reflexivity.
Qed.

Lemma fetch_current_calls (cl : Client) (l : Locals.t) :
  remote_calls (Locals.out (fst (fetch_current cl l)))
  = (remote_calls (Locals.out l) ++ [current_playing])%list.
Proof.
  unfold fetch_current, try_except.
  unfold bind at 1, query at 1.
  destruct (current_playing_result cl) as [resp|e].
  - match goal with
    | |- context [?rest (Locals.emit (Remote current_playing) l)] =>
        assert (Hk : keeps same_calls rest) by same_calls_steps;
        specialize (Hk (Locals.emit (Remote current_playing) l));
        destruct (rest (Locals.emit (Remote current_playing) l))
          as [l1 [[]|e]]
    end; unfold same_calls in Hk; cbn in Hk |- *;
      rewrite ?remote_calls_app, ?app_nil_r in *; cbn in *;
      rewrite ?app_nil_r; exact Hk.
  - cbn. rewrite !remote_calls_app. cbn. rewrite app_nil_r. reflexivity.
Qed.

Lemma fetch_state_remote_calls (cl : Client) :
  remote_calls (fst (fetch_state cl))
  = match current_item (current_playing_result cl) with
    | Some _ => [current_playing]
    | None => [current_playing; recently_played]
    end.
Proof.
  unfold fetch_state, fetch_state_body, bind.
  destruct (current_item (current_playing_result cl)) as [item|] eqn:Hc.
  - destruct (fetch_current_item cl item Hc) as (l & H & Ht & Hi & Hcalls).
    rewrite H. unfold gets at 1, when. rewrite Ht, Hi. cbn.
    rewrite Ht, Hi. cbn. exact Hcalls.
  - destruct (fetch_current_no_item cl Hc) as (ev & H).
    pose proof (fetch_current_calls cl Locals.init) as H1.
    rewrite H in H1. cbn [fst] in H1.
    rewrite H. unfold gets at 1, when.
    cbn [untouched Locals.current_track truthy negb].
    pose proof (fetch_recent_calls cl (untouched (Remote current_playing :: ev)))
      as H2.
    destruct (fetch_recent_returns cl (untouched (Remote current_playing :: ev)))
      as (l2 & [] & H3).
    rewrite H3 in H2 |- *. cbn [fst] in H2.
    unfold gets, ret.
    destruct (negb (truthy (Locals.current_track l2))); cbn;
      rewrite H2, H1; reflexivity.
Qed.

(** X4: [fetch_state] calls current-playing first, and recently-played
    after it exactly when the current-playing call raised or yielded no
    item; it makes no other call. *)
Theorem fetch_state_calls (cl : Client) :
  remote_calls (fst (fetch_state cl))
  = match current_item (current_playing_result cl) with
    | Some _ => [current_playing]
    | None => [current_playing; recently_played]
    end.
Proof. exact (fetch_state_remote_calls cl). Qed.

(** X5: when the current-playing response has an item but
    [resp["device"]["id"]] raises (no device, a device that is no dict,
    no id), [fetch_state] still returns a tuple: the item as track,
    [is_playing], [shuffle_state] and the repeat flag as the response has
    them, and no device id, volume 50, progress 0 and duration 0,
    whatever the response and the track say about them. *)
Theorem fetch_state_partial (cl : Client) (r : list (string * pyval))
    (item : pyval) (e : exn) :
  current_playing_result cl = Ok (PDict r) ->
  lookup "item" r = Some item ->
  truthy item = true ->
  bindR (py_getitem (PDict r) "device") (fun device => py_getitem device "id")
  = Raise e ->
  snd (fetch_state cl)
  = Ok (Some (Fetched.mk PNone item
                (dict_get r "is_playing" PNone)
                (dict_get r "shuffle_state" PNone)
                (negb (py_eq (dict_get r "repeat_state" (PStr "off"))
                         (PStr "off")))
                (PInt 50) (PInt 0) (PInt 0))).
Proof.
  intros Hc Hitem Ht Hdev.
  assert (Hr : truthy (PDict r) = true)
    by (destruct r; [discriminate|reflexivity]).
  unfold fetch_state, fetch_state_body, fetch_current, try_except, query, bind.
  rewrite Hc, Hr.
  unfold lift, when, ret, gets, say, modify, py_get at 1.
  rewrite Hitem, Ht. unfold dict_get.
  cbn -[lookup py_getitem truthy].
  assert (Hget : py_getitem (PDict r) "item" = Ok item)
    by (cbn; rewrite Hitem; reflexivity).
  rewrite Hget. cbn -[lookup py_getitem truthy].
  destruct (py_getitem (PDict r) "device") as [device|e1];
    cbn -[lookup py_getitem truthy] in Hdev |- *.
  - rewrite Hdev. cbn -[lookup truthy]. rewrite Ht. cbn -[lookup truthy].
    rewrite Ht. reflexivity.
  - cbn -[lookup truthy]. rewrite Ht. cbn -[lookup truthy].
    rewrite Ht. reflexivity.
Qed.

Lemma fetch_state_partial_witness :
  snd (fetch_state deviceless_client)
  = Ok (Some (Fetched.mk PNone sample_track (PBool true) PNone false
                (PInt 50) (PInt 0) (PInt 0))).
Proof.
  apply (fetch_state_partial deviceless_client playback_without_device
           sample_track KeyError); reflexivity.
Defined.

(** X6: a poll that falls back on recently-played overwrites the state
    with the defaults of the tuple, [is_playing] false, shuffle false,
    repeat false, volume 50 and progress 0, whatever they were, and keeps
    the device id of the client session. *)
Theorem fallback_poll_resets_transport (due_at fetched_at : Z) (cl : Client)
    (a : App) (track : pyval) :
  poll_due due_at (State.latest_fetch (state a)) = true ->
  current_item (current_playing_result cl) = None ->
  recent_track (recently_played_result cl) = Some track ->
  session_device_id (fst (poll_block due_at fetched_at cl a))
  = session_device_id a /\
  State.track (state (fst (poll_block due_at fetched_at cl a))) = track /\
  State.is_playing (state (fst (poll_block due_at fetched_at cl a)))
  = PBool false /\
  State.shuffle (state (fst (poll_block due_at fetched_at cl a)))
  = PBool false /\
  State.repeat (state (fst (poll_block due_at fetched_at cl a))) = false /\
  State.volume (state (fst (poll_block due_at fetched_at cl a))) = PInt 50 /\
  State.progress_ms (state (fst (poll_block due_at fetched_at cl a)))
  = PInt 0.
Proof.
  intros Hdue Hc Hr.
  destruct (fetch_state_fallback cl track Hc Hr) as (_ & Hf).
  destruct (fetch_state cl) as [events res] eqn:Hfs. cbn [snd] in Hf.
  subst res.
  destruct (poll_block_some due_at fetched_at cl a events _ Hdue Hfs)
    as (H1 & H2 & H3 & H4 & H5 & H6 & H7 & _).
  cbn in H1. repeat split; assumption.
Qed.

Lemma fallback_poll_resets_transport_witness :
  session_device_id (fst (poll_block 100 100 idle_client showing_track))
  = PStr "5fbb3ba6aa454b5534c4ba43a8c7e8e45a63ad0e" /\
  State.volume (state (fst (poll_block 100 100 idle_client
                              (with_state (State.set_volume (PInt 80))
                                 showing_track)))) = PInt 50.
Proof.
  split.
  - apply (fallback_poll_resets_transport 100 100 idle_client showing_track
             sample_track); reflexivity.
  - apply (fallback_poll_resets_transport 100 100 idle_client
             (with_state (State.set_volume (PInt 80)) showing_track)
             sample_track); reflexivity.
Defined.

(** ** The poll of the display loop: liked status, cadence *)

(** X7: after a poll that fetched a tuple whose track is a dict, the
    liked status is asked for the track's id; when that call returns,
    [is_liked] is its answer, and when it raises, [is_liked] stays as it
    was and the poll still returns. *)
Theorem poll_checks_liked (due_at fetched_at : Z) (cl : Client) (a : App)
    (events : list Event) (t : Fetched.t) (d : list (string * pyval)) :
  poll_due due_at (State.latest_fetch (state a)) = true ->
  fetch_state cl = (events, Ok (Some t)) ->
  Fetched.track t = PDict d ->
  snd (poll_block due_at fetched_at cl a) = Ok tt /\
  In (check_saved_track (dict_get d "id" PNone))
     (remote_calls (out (fst (poll_block due_at fetched_at cl a)))) /\
  State.is_liked (state (fst (poll_block due_at fetched_at cl a)))
  = match check_saved_track_result cl (dict_get d "id" PNone) with
    | Ok liked => liked
    | Raise _ => State.is_liked (state a)
    end.
Proof.
  intros Hdue Hfs Hd.
  assert (Ht : truthy (Fetched.track t) = true)
    by (apply (fetch_state_track_truthy cl); rewrite Hfs; reflexivity).
  destruct t as [did tr ip sh rp vol pr du]. cbn in Hd, Ht. subst tr.
  unfold poll_block, bind, gets, when, assign, modify, run_fetch_state,
    try_except, call_check_saved_track, lift, ret, print.
  rewrite Hdue, Hfs. unfold dict_get. cbn -[truthy lookup].
  destruct (truthy did); cbn -[truthy lookup]; rewrite Ht;
    cbn -[truthy lookup];
    (destruct (check_saved_track_result cl
                 match lookup "id" d with Some x => x | None => PNone end);
     cbn -[lookup]; rewrite !remote_calls_app; cbn -[lookup];
     (split; [reflexivity|split; [|reflexivity]]);
     rewrite ?remote_calls_app; cbn -[lookup];
     rewrite ?in_app_iff; cbn -[lookup]; auto 10).
Qed.

Lemma poll_checks_liked_witness :
  State.is_liked
    (state (fst (poll_block 100 100 liked_unknown_client liked_app))) = true /\
  State.is_liked (state (fst (poll_block 100 100 online_client fresh_app)))
  = true.
Proof.
  split.
  - apply (poll_checks_liked 100 100 liked_unknown_client liked_app
             (fst (fetch_state liked_unknown_client))
             (current_playback sample_playback sample_device sample_track
                (PStr "5fbb3ba6aa454b5534c4ba43a8c7e8e45a63ad0e"))
             [("id", PStr "4uLU6hMCjMI75M1A2tKUQC");
              ("name", PStr "Never Gonna Give You Up");
              ("duration_ms", PInt 213573)]); reflexivity.
  - apply (poll_checks_liked 100 100 online_client fresh_app
             (fst (fetch_state online_client))
             (current_playback sample_playback sample_device sample_track
                (PStr "5fbb3ba6aa454b5534c4ba43a8c7e8e45a63ad0e"))
             [("id", PStr "4uLU6hMCjMI75M1A2tKUQC");
              ("name", PStr "Never Gonna Give You Up");
              ("duration_ms", PInt 213573)]); reflexivity.
Defined.

Lemma leaves_client_alone_refl (a : App) : leaves_client_alone a a.
Proof. split; reflexivity. Qed.

Lemma leaves_client_alone_trans (a1 a2 a3 : App) :
  leaves_client_alone a1 a2 -> leaves_client_alone a2 a3 ->
  leaves_client_alone a1 a3.
Proof.
  unfold leaves_client_alone. intros (H1 & H2) (H3 & H4). split; congruence.
Qed.

Lemma progress_block_leaves_client_alone (now : Z) :
  keeps leaves_client_alone (progress_block now).
Proof.
  unfold progress_block, assign.
  keeps_steps leaves_client_alone leaves_client_alone_refl
    leaves_client_alone_trans; split; reflexivity.
Qed.

Lemma dimmer_block_leaves_client_alone (now : Z) :
  keeps leaves_client_alone (dimmer_block now).
Proof.
  unfold dimmer_block, assign, set_backlight.
  keeps_steps leaves_client_alone leaves_client_alone_refl
    leaves_client_alone_trans;
    try (split; reflexivity);
    (split; [reflexivity|]; cbn; rewrite remote_calls_app, app_nil_r;
     reflexivity).
Qed.

Lemma display_tick_leaves_client_alone (r : Reading) (a : App) (t : Z) :
  State.latest_fetch (state a) = Some t ->
  t <> 0 ->
  due_at r - t <= 10 ->
  leaves_client_alone a (fst (display_tick r a)).
Proof.
  intros Hf Ht Hdue.
  assert (Hnot : poll_due (due_at r) (State.latest_fetch (state a)) = false).
  { rewrite Hf. unfold poll_due, INTERVAL.
    destruct (Z.eqb_spec t 0); [contradiction|].
    destruct (Z.ltb_spec 10 (due_at r - t)); [lia|reflexivity]. }
  assert (Hk : keeps leaves_client_alone
                 (progress_block (progress_at r);; dimmer_block (dim_at r))).
  { apply (keeps_bind leaves_client_alone leaves_client_alone_trans).
    - apply progress_block_leaves_client_alone.
    - intros _. apply dimmer_block_leaves_client_alone. }
  unfold display_tick. unfold bind at 1.
  rewrite (poll_block_not_due (due_at r) (fetched_at r) (api r) a Hnot).
  apply Hk.
Qed.

(** X8: for ten seconds after a fetch the display loop leaves the client
    alone: through any number of iterations whose clock is at most 10
    past [latest_fetch] (a time other than 0), no method of the client is
    called and [latest_fetch] stays. *)
Theorem display_loop_poll_cadence (rs : list Reading) :
  forall (a : App) (t : Z),
    State.latest_fetch (state a) = Some t ->
    t <> 0 ->
    Forall (fun r => due_at r - t <= 10) rs ->
    remote_calls (out (fst (display_loop rs a))) = remote_calls (out a) /\
    State.latest_fetch (state (fst (display_loop rs a))) = Some t.
Proof.
  induction rs as [|r later IH]; intros a t Hf Ht Hall.
  - split; [reflexivity|exact Hf].
  - cbn [display_loop].
    destruct (State.exit (state a)); [split; [reflexivity|exact Hf]|].
    inversion Hall as [|r' later' Hr Hlater]; subst.
    destruct (display_tick_leaves_client_alone r a t Hf Ht Hr) as (H1 & H2).
    destruct (display_tick r a) as [a1 [[]|e]]; cbn [fst] in *.
    + destruct (IH a1 t) as (H3 & H4); [congruence|exact Ht|exact Hlater|].
      split; congruence.
    + split; congruence.
Qed.

Lemma display_loop_poll_cadence_witness :
  remote_calls
    (out (fst (display_loop [reading_at 1003; reading_at 1010]
                 playing_from_start)))
  = remote_calls (out playing_from_start) /\
  State.latest_fetch
    (state (fst (display_loop [reading_at 1003; reading_at 1010]
                   playing_from_start))) = Some 1000.
Proof.
  apply (display_loop_poll_cadence [reading_at 1003; reading_at 1010]
           playing_from_start 1000).
  - reflexivity.
  - discriminate.
  - repeat constructor; cbn; lia.
Defined.

Lemma only_adds_refl (a : App) : only_adds a a.
Proof. exists []. symmetry. apply app_nil_r. Qed.

Lemma only_adds_trans (a1 a2 a3 : App) :
  only_adds a1 a2 -> only_adds a2 a3 -> only_adds a1 a3.
Proof.
  intros (m1 & H1) (m2 & H2). exists (m1 ++ m2)%list.
  rewrite H2, H1, app_assoc. reflexivity.
Qed.

Lemma only_adds_with_state (f : State.t -> State.t) (a : App) :
  only_adds a (with_state f a).
Proof. apply (only_adds_refl a). Qed.

Lemma only_adds_emit (e : Event) (a : App) : only_adds a (emit e a).
Proof. exists [e]. reflexivity. Qed.

Ltac only_adds_steps :=
  unfold assign, print, set_backlight;
  keeps_steps only_adds only_adds_refl only_adds_trans;
  try apply only_adds_with_state;
  try apply only_adds_emit;
  try apply only_adds_refl.

Lemma progress_block_only_adds (now : Z) : keeps only_adds (progress_block now).
Proof. unfold progress_block. only_adds_steps. Qed.

Lemma dimmer_block_only_adds (now : Z) : keeps only_adds (dimmer_block now).
Proof. unfold dimmer_block. only_adds_steps. Qed.

(** A poll that is due adds the events of [fetch_state] first. *)
Lemma poll_block_due_out (due_at fetched_at : Z) (cl : Client) (a : App) :
  poll_due due_at (State.latest_fetch (state a)) = true ->
  exists more,
    out (fst (poll_block due_at fetched_at cl a))
    = (out a ++ fst (fetch_state cl) ++ more)%list.
Proof.
  intros Hdue. unfold poll_block.
  unfold bind at 1, gets at 1, when. rewrite Hdue.
  unfold bind at 1, assign at 1, modify at 1.
  unfold bind at 1, run_fetch_state at 1.
  destruct (fetch_state cl) as [events [result|e]]; cbn [fst].
  - match goal with
    | |- context [fst (?rest ?a1)] =>
        assert (Hk : keeps only_adds rest)
    end.
    { destruct result as [t|]; only_adds_steps.
      - exists []. cbn. symmetry. apply app_nil_r.
      - unfold call_check_saved_track. intros a0. apply only_adds_emit. }
    match goal with
    | |- context [fst (?rest ?a1)] => destruct (Hk a1) as (more & Hm)
    end.
    exists more. rewrite Hm. cbn. rewrite app_assoc. reflexivity.
  - exists []. cbn. rewrite app_nil_r. reflexivity.
Qed.

(** An iteration whose poll is due calls current-playing before anything
    else. *)
Lemma display_tick_due_calls (r : Reading) (a : App) :
  poll_due (due_at r) (State.latest_fetch (state a)) = true ->
  exists more,
    remote_calls (out (fst (display_tick r a)))
    = (remote_calls (out a) ++ current_playing :: more)%list.
Proof.
  intros Hdue.
  destruct (poll_block_due_out (due_at r) (fetched_at r) (api r) a Hdue)
    as (m1 & H1).
  assert (Hk : keeps only_adds
                 (progress_block (progress_at r);; dimmer_block (dim_at r))).
  { apply (keeps_bind only_adds only_adds_trans).
    - apply progress_block_only_adds.
    - intros _. apply dimmer_block_only_adds. }
  assert (Hfirst : exists rest,
             remote_calls (fst (fetch_state (api r))) = current_playing :: rest).
  { rewrite fetch_state_remote_calls.
    destruct (current_item (current_playing_result (api r)));
      eexists; reflexivity. }
  destruct Hfirst as (rest & Hrest).
  unfold display_tick. unfold bind at 1.
  destruct (poll_block (due_at r) (fetched_at r) (api r) a) as [a1 [[]|e]];
    cbn [fst] in *.
  - destruct (Hk a1) as (m2 & H2).
    rewrite H2, H1, !remote_calls_app, Hrest.
    eexists. rewrite <- !app_assoc. cbn. reflexivity.
  - rewrite H1, !remote_calls_app, Hrest.
    eexists. cbn. reflexivity.
Qed.

(** X9: after a skip to the next or the previous track whose command
    returned, the next iteration of the display loop polls, however
    recent the last fetch was: it calls current-playing right after the
    skip. *)
Theorem skip_forces_poll (env : Env) (a : App) (r : Reading) :
  (snd (next_track env a) = Ok tt ->
   State.latest_fetch (state (fst (next_track env a))) = None /\
   exists more,
     remote_calls (out (fst (display_tick r (fst (next_track env a)))))
     = (remote_calls (out a) ++ next :: current_playing :: more)%list) /\
  (snd (previous_track env a) = Ok tt ->
   State.latest_fetch (state (fst (previous_track env a))) = None /\
   exists more,
     remote_calls (out (fst (display_tick r (fst (previous_track env a)))))
     = (remote_calls (out a) ++ previous :: current_playing :: more)%list).
Proof.
  split; intros Hok.
  - assert (H : next_track env a
                = (with_state (State.set_last_activity (time env))
                     (with_state (State.set_latest_fetch None)
                        (emit (Remote next) a)), Ok tt)).
    { revert Hok. unfold next_track, bind, call, assign, modify.
      destruct (command_result (client env) next) as [[]|e];
        [reflexivity|discriminate]. }
    rewrite H. cbn [fst]. split; [reflexivity|].
    destruct (display_tick_due_calls r
                (with_state (State.set_last_activity (time env))
                   (with_state (State.set_latest_fetch None)
                      (emit (Remote next) a)))) as (more & Hm);
      [reflexivity|].
    exists more. rewrite Hm. cbn. rewrite remote_calls_app, <- app_assoc.
    reflexivity.
  - assert (H : previous_track env a
                = (with_state (State.set_last_activity (time env))
                     (with_state (State.set_latest_fetch None)
                        (emit (Remote previous) a)), Ok tt)).
    { revert Hok. unfold previous_track, bind, call, assign, modify.
      destruct (command_result (client env) previous) as [[]|e];
        [reflexivity|discriminate]. }
    rewrite H. cbn [fst]. split; [reflexivity|].
    destruct (display_tick_due_calls r
                (with_state (State.set_last_activity (time env))
                   (with_state (State.set_latest_fetch None)
                      (emit (Remote previous) a)))) as (more & Hm);
      [reflexivity|].
    exists more. rewrite Hm. cbn. rewrite remote_calls_app, <- app_assoc.
    reflexivity.
Qed.

Lemma skip_forces_poll_witness :
  State.latest_fetch (state (fst (next_track touch_online playing_from_start)))
  = None /\
  exists more,
    remote_calls
      (out (fst (display_tick (reading_at 1001)
                   (fst (next_track touch_online playing_from_start)))))
    = (remote_calls (out playing_from_start)
       ++ next :: current_playing :: more)%list.
Proof.
  apply (proj1 (skip_forces_poll touch_online playing_from_start
                  (reading_at 1001))).
  reflexivity.
Defined.

(** ** The handlers: volume, like *)

Lemma volume_up_run (env : Env) (a : App) (v : Z) :
  State.volume (state a) = PInt v ->
  volume_up env a
  = match command_result (client env) (set_volume (PInt (Z.min 100 (v + 10)))) with
    | Ok _ =>
        (emit (Print (TextVal "Volume: " (PInt (Z.min 100 (v + 10))) "%"))
           (with_state (State.set_last_activity (time env))
              (with_state (State.set_volume (PInt (Z.min 100 (v + 10))))
                 (emit (Remote (set_volume (PInt (Z.min 100 (v + 10))))) a))),
         Ok tt)
    | Raise e =>
        (emit (Remote (set_volume (PInt (Z.min 100 (v + 10))))) a, Raise e)
    end.
Proof.
  intros Hv.
  unfold volume_up, bind, gets, lift, call, assign, modify, print, py_min,
    py_lt, py_arith.
  rewrite Hv. cbn [num_of].
  assert (Hmin : (if v + 10 <? 100 then PInt (v + 10) else PInt 100)
                 = PInt (Z.min 100 (v + 10))).
  { destruct (Z.ltb_spec (v + 10) 100).
    - rewrite Z.min_r by lia. reflexivity.
    - rewrite Z.min_l by lia. reflexivity. }
  rewrite Hmin.
  destruct (command_result (client env) (set_volume (PInt (Z.min 100 (v + 10)))))
    as [[]|e]; reflexivity.
Qed.

Lemma volume_down_run (env : Env) (a : App) (v : Z) :
  State.volume (state a) = PInt v ->
  volume_down env a
  = match command_result (client env) (set_volume (PInt (Z.max 0 (v - 10)))) with
    | Ok _ =>
        (emit (Print (TextVal "Volume: " (PInt (Z.max 0 (v - 10))) "%"))
           (with_state (State.set_last_activity (time env))
              (with_state (State.set_volume (PInt (Z.max 0 (v - 10))))
                 (emit (Remote (set_volume (PInt (Z.max 0 (v - 10))))) a))),
         Ok tt)
    | Raise e =>
        (emit (Remote (set_volume (PInt (Z.max 0 (v - 10))))) a, Raise e)
    end.
Proof.
  intros Hv.
  unfold volume_down, bind, gets, lift, call, assign, modify, print, py_max,
    py_lt, py_arith.
  rewrite Hv. cbn [num_of].
  assert (Hmax : (if 0 <? v - 10 then PInt (v - 10) else PInt 0)
                 = PInt (Z.max 0 (v - 10))).
  { destruct (Z.ltb_spec 0 (v - 10)).
    - rewrite Z.max_r by lia. reflexivity.
    - rewrite Z.max_l by lia. reflexivity. }
  rewrite Hmax.
  destruct (command_result (client env) (set_volume (PInt (Z.max 0 (v - 10)))))
    as [[]|e]; reflexivity.
Qed.

(** X10: no press takes the volume out of 0..100: from an integer volume
    in that range, whatever button of [setup_buttons] is pressed and
    whatever its command answers, the volume afterwards is an integer in
    that range; and the volume the volume buttons send is in that range
    as well. *)
Theorem volume_stays_in_range (d : Screen) (b : ControlButton) (env : Env)
    (a : App) (v : Z) :
  In b (setup_buttons d) ->
  State.volume (state a) = PInt v ->
  0 <= v <= 100 ->
  (exists v',
     State.volume (state (fst (on_press b env a))) = PInt v' /\
     0 <= v' <= 100) /\
  (forall sent,
     In (set_volume sent) (remote_calls (out (fst (on_press b env a)))) ->
     In (set_volume sent) (remote_calls (out a)) \/
     exists v', sent = PInt v' /\ 0 <= v' <= 100).
Proof.
  intros Hin Hv Hrange.
  assert (Hsame : forall a',
             State.volume (state a') = State.volume (state a) ->
             exists v', State.volume (state a') = PInt v' /\ 0 <= v' <= 100)
    by (intros a' H; exists v; rewrite H; split; assumption).
  assert (Hsent : forall (c : Command) sent,
             (forall x, c <> set_volume x) ->
             In (set_volume sent) (remote_calls (out a ++ [Remote c])) ->
             In (set_volume sent) (remote_calls (out a)) \/
             exists v', sent = PInt v' /\ 0 <= v' <= 100).
  { intros c sent Hc H. rewrite remote_calls_app, in_app_iff in H.
    destruct H as [H|[H|[]]]; [left; exact H|]. exfalso. apply (Hc sent H). }
  repeat (destruct Hin as [<-|Hin];
          [cbn [on_press new_button]|]); try contradiction.
  - split; [apply Hsame; reflexivity|intros sent H; left; exact H].
  - unfold next_track, bind, call, assign, modify.
    destruct (command_result (client env) next) as [[]|e]; cbn;
      (split; [exists v; split; assumption|intros sent;
               apply Hsent; discriminate]).
  - unfold previous_track, bind, call, assign, modify.
    destruct (command_result (client env) previous) as [[]|e]; cbn;
      (split; [exists v; split; assumption|intros sent;
               apply Hsent; discriminate]).
  - unfold play_pause, bind, gets, call, assign, modify.
    destruct (truthy (State.is_playing (state a)));
      [destruct (command_result (client env) pause) as [[]|e]
      |destruct (command_result (client env) play) as [[]|e]]; cbn;
      (split; [exists v; split; assumption|intros sent;
               apply Hsent; discriminate]).
  - unfold toggle_shuffle_handler, bind, gets, call, assign, modify.
    match goal with |- context [command_result ?c ?x] =>
      destruct (command_result c x) as [[]|e] end; cbn;
      (split; [exists v; split; assumption|intros sent;
               apply Hsent; discriminate]).
  - unfold toggle_repeat_handler, bind, gets, call, assign, modify.
    match goal with |- context [command_result ?c ?x] =>
      destruct (command_result c x) as [[]|e] end; cbn;
      (split; [exists v; split; assumption|intros sent;
               apply Hsent; discriminate]).
  - unfold toggle_lights, bind, gets, call_leds, assign, modify.
    destruct (leds_result env (negb (State.toggle_leds (state a))))
      as [[]|e]; cbn;
      (split; [exists v; split; assumption|intros sent H]);
      rewrite remote_calls_app, in_app_iff in H;
      destruct H as [H|[]]; left; exact H.
  - rewrite (volume_up_run env a v Hv).
    destruct (command_result (client env)
                (set_volume (PInt (Z.min 100 (v + 10))))) as [[]|e]; cbn;
      (split; [eexists; split; [eassumption || reflexivity|lia]|intros sent H]);
      rewrite ?remote_calls_app, ?in_app_iff in H; cbn in H;
      rewrite ?remote_calls_app, ?in_app_iff in H; cbn in H;
      intuition; right; exists (Z.min 100 (v + 10));
      (split; [congruence|lia]).
  - rewrite (volume_down_run env a v Hv).
    destruct (command_result (client env)
                (set_volume (PInt (Z.max 0 (v - 10))))) as [[]|e]; cbn;
      (split; [eexists; split; [eassumption || reflexivity|lia]|intros sent H]);
      rewrite ?remote_calls_app, ?in_app_iff in H; cbn in H;
      rewrite ?remote_calls_app, ?in_app_iff in H; cbn in H;
      intuition; right; exists (Z.max 0 (v - 10));
      (split; [congruence|lia]).
  - unfold toggle_like, when, bind, gets, lift, call, assign, modify, print.
    destruct (truthy (State.track (state a)));
      [|split; [exists v; split; assumption|intros sent H; left; exact H]].
    destruct (py_get (State.track (state a)) "id" PNone) as [i|e];
      [|split; [exists v; split; assumption|intros sent H; left; exact H]].
    destruct (State.is_liked (state a));
      match goal with |- context [command_result ?c ?x] =>
        destruct (command_result c x) as [[]|e] end; cbn;
      (split; [exists v; split; assumption|intros sent H]);
      rewrite ?remote_calls_app, ?in_app_iff in H; cbn in H;
      rewrite ?remote_calls_app, ?in_app_iff in H; cbn in H;
      intuition; discriminate.
  - unfold toggle_controls, bind, gets, assign, modify. cbn.
    split; [exists v; split; assumption|intros sent H; left; exact H].
Qed.

Lemma volume_stays_in_range_witness :
  exists v',
    State.volume (state (fst (on_press volume_up_button touch_online loud_app)))
    = PInt v' /\ 0 <= v' <= 100.
Proof.
  apply (volume_stays_in_range presto_screen volume_up_button touch_online
           loud_app 95).
  - simpl. tauto.
  - reflexivity.
  - lia.
Defined.

(** X11: volume up followed by volume down, both commands returning,
    leaves an integer volume [v] of 0..100 at [min v 90]; volume down
    followed by volume up leaves it at [max v 10].  The pair is the
    identity only away from the end it runs into. *)
Theorem volume_up_down (env1 env2 : Env) (a : App) (v : Z) :
  State.volume (state a) = PInt v ->
  0 <= v <= 100 ->
  (snd (volume_up env1 a) = Ok tt ->
   snd (volume_down env2 (fst (volume_up env1 a))) = Ok tt ->
   State.volume (state (fst (volume_down env2 (fst (volume_up env1 a)))))
   = PInt (Z.min v 90)) /\
  (snd (volume_down env1 a) = Ok tt ->
   snd (volume_up env2 (fst (volume_down env1 a))) = Ok tt ->
   State.volume (state (fst (volume_up env2 (fst (volume_down env1 a)))))
   = PInt (Z.max v 10)).
Proof.
  intros Hv Hrange. split.
  - rewrite (volume_up_run env1 a v Hv).
    destruct (command_result (client env1)
                (set_volume (PInt (Z.min 100 (v + 10))))) as [[]|e];
      [|discriminate].
    intros _. cbn [fst].
    rewrite (volume_down_run env2 _ (Z.min 100 (v + 10))) by reflexivity.
    destruct (command_result (client env2) _) as [[]|e]; [|discriminate].
    intros _. cbn. f_equal. lia.
  - rewrite (volume_down_run env1 a v Hv).
    destruct (command_result (client env1)
                (set_volume (PInt (Z.max 0 (v - 10))))) as [[]|e];
      [|discriminate].
    intros _. cbn [fst].
    rewrite (volume_up_run env2 _ (Z.max 0 (v - 10))) by reflexivity.
    destruct (command_result (client env2) _) as [[]|e]; [|discriminate].
    intros _. cbn. f_equal. lia.
Qed.

Lemma volume_up_down_witness :
  State.volume
    (state (fst (volume_down touch_online (fst (volume_up touch_online loud_app)))))
  = PInt (Z.min 95 90) /\
  State.volume
    (state (fst (volume_up touch_online (fst (volume_down touch_online loud_app)))))
  = PInt (Z.max 95 10).
Proof.
  destruct (volume_up_down touch_online touch_online loud_app 95 eq_refl)
    as (H1 & H2); [lia|].
  split; [apply H1|apply H2]; reflexivity.
Defined.

(** X12: the like button does nothing at all without a track: no call,
    no print, no change of the state, not even of [last_activity].  With
    a track that is a dict it sends [remove_saved_track] for a liked
    track and [save_track] for one that is not, with the track's id; it
    flips [is_liked] when the command returns and leaves the state as it
    was when the command raises. *)
Theorem toggle_like_by_track (env : Env) (a : App) :
  (truthy (State.track (state a)) = false ->
   toggle_like env a = (a, Ok tt)) /\
  (forall (d : list (string * pyval)),
      State.track (state a) = PDict d ->
      d <> [] ->
      let track_id := dict_get d "id" PNone in
      let command := if State.is_liked (state a)
                     then remove_saved_track track_id
                     else save_track track_id in
      remote_calls (out (fst (toggle_like env a)))
      = (remote_calls (out a) ++ [command])%list /\
      state (fst (toggle_like env a))
      = match command_result (client env) command with
        | Ok _ => State.set_last_activity (time env)
                    (State.set_is_liked (negb (State.is_liked (state a)))
                       (state a))
        | Raise _ => state a
        end /\
      snd (toggle_like env a) = command_result (client env) command).
Proof.
  split.
  - intros Ht. unfold toggle_like, bind, gets, when. rewrite Ht. reflexivity.
  - intros d Hd Hne. cbn zeta.
    unfold toggle_like, when, bind, gets, lift, call, assign, modify, print,
      dict_get.
    rewrite Hd. destruct d as [|p d']; [contradiction|].
    cbn [truthy py_get].
    destruct (State.is_liked (state a)) eqn:Hl;
      match goal with |- context [command_result ?c ?x] =>
        destruct (command_result c x) as [[]|e] end;
      cbn -[lookup]; rewrite ?remote_calls_app; cbn -[lookup];
      rewrite ?app_nil_r, ?Hl; repeat split.
Qed.

Lemma toggle_like_by_track_witness :
  toggle_like touch_online fresh_app = (fresh_app, Ok tt) /\
  remote_calls (out (fst (toggle_like touch_online unliked_track_app)))
  = [save_track (PStr "4uLU6hMCjMI75M1A2tKUQC")].
Proof.
  split.
  - apply (proj1 (toggle_like_by_track touch_online fresh_app)). reflexivity.
  - apply (proj2 (toggle_like_by_track touch_online unliked_track_app)
             [("id", PStr "4uLU6hMCjMI75M1A2tKUQC");
              ("name", PStr "Never Gonna Give You Up");
              ("duration_ms", PInt 213573)]).
    + reflexivity.
    + discriminate.
Defined.

(** ** The input loop: overlay, exit *)

(** With the overlay hidden no button of [setup_buttons] but the last
    one is enabled after its update. *)
Lemma hidden_controls_not_hit (d : Screen) (env : Env) (s : State.t) :
  State.show_controls s = false ->
  forallb (fun x => negb (hit env s x)) (removelast (setup_buttons d)) = true.
Proof.
  intros H. cbn. unfold hit, is_pressed, run_update. cbn. rewrite H.
  reflexivity.
Qed.

(** X13: while the controls overlay is hidden, a touch can only bring it
    up: an iteration of the input loop over the buttons of
    [setup_buttons] dispatches the full-screen toggle when its area
    reports a press, which shows the overlay and stamps the activity,
    and dispatches nothing otherwise; in neither case is a command sent
    to the client. *)
Theorem hidden_overlay_first_touch (d : Screen) (env : Env) (a : App) :
  State.show_controls (state a) = false ->
  snd (touch_tick env {| app := a; buttons := setup_buttons d |}) = Ok tt /\
  app (fst (touch_tick env {| app := a; buttons := setup_buttons d |}))
  = (if button_is_pressed env (0, 0, width d, height d)
     then with_state (State.set_last_activity (time env))
            (with_state (State.set_show_controls true)
               (emit (Print (Text "Toggle Controls pressed")) a))
     else a).
Proof.
  intros Hshow.
  pose proof (hidden_controls_not_hit d env (state a) Hshow) as Hbefore.
  unfold touch_tick. cbn [app buttons].
  destruct (button_is_pressed env (0, 0, width d, height d)) eqn:Hp.
  - change (setup_buttons d)
      with (removelast (setup_buttons d)
            ++ new_button "Toggle Controls" [] (0, 0, width d, height d)
                 toggle_controls update_always_enabled :: [])%list.
    rewrite (scan_first_pressed env _ [] _ a Hbefore).
    + split; [reflexivity|]. cbn [fst]. unfold dispatch, run_update.
      cbn. unfold try_except, toggle_controls, bind, gets, assign, modify,
        print. cbn. rewrite Hshow. reflexivity.
    + unfold hit, is_pressed, run_update. cbn. exact Hp.
  - rewrite (scan_none_pressed env (setup_buttons d) a).
    + split; reflexivity.
    + change (setup_buttons d)
        with (removelast (setup_buttons d)
              ++ new_button "Toggle Controls" [] (0, 0, width d, height d)
                   toggle_controls update_always_enabled :: [])%list.
      rewrite forallb_app, Hbefore. cbn. unfold hit, is_pressed, run_update.
      cbn. rewrite Hp. reflexivity.
Qed.

Lemma hidden_overlay_first_touch_witness :
  app (fst (touch_tick touch_online
              {| app := fresh_app; buttons := setup_buttons presto_screen |}))
  = (if button_is_pressed touch_online
          (0, 0, width presto_screen, height presto_screen)
     then with_state (State.set_last_activity (time touch_online))
            (with_state (State.set_show_controls true)
               (emit (Print (Text "Toggle Controls pressed")) fresh_app))
     else fresh_app).
Proof.
  apply (hidden_overlay_first_touch presto_screen touch_online fresh_app).
  reflexivity.
Defined.

(** X14: a press on the exit button ends the input loop: with the
    overlay shown and the exit area reporting a press, the iteration sets
    [exit], prints the press, sends nothing to the client, and the loop
    stops there, whatever readings would follow. *)
Theorem exit_press_ends_input_loop (d : Screen) (env : Env)
    (later : list Env) (a : App) :
  State.exit (state a) = false ->
  State.show_controls (state a) = true ->
  button_is_pressed env (0, 0, 80, 80) = true ->
  snd (touch_handler_loop (env :: later)
         {| app := a; buttons := setup_buttons d |}) = Ok tt /\
  app (fst (touch_handler_loop (env :: later)
              {| app := a; buttons := setup_buttons d |}))
  = with_state (State.set_exit true) (emit (Print (Text "Exit pressed")) a).
Proof.
  intros Hexit Hshow Hp.
  cbn [touch_handler_loop app]. rewrite Hexit.
  unfold touch_tick. cbn [app buttons].
  change (setup_buttons d)
    with ([] ++ new_button "Exit" ["exit.png"] (0, 0, 80, 80) exit_app
                  update_show_controls :: tl (setup_buttons d))%list.
  rewrite (scan_first_pressed env [] _ _ a eq_refl).
  - unfold dispatch, run_update. cbn.
    unfold try_except, exit_app, bind, assign, modify, print. cbn.
    destruct later; cbn; split; reflexivity.
  - unfold hit, is_pressed, run_update. cbn. rewrite Hshow, Hp. reflexivity.
Qed.

Lemma exit_press_ends_input_loop_witness :
  app (fst (touch_handler_loop [touch_corner; touch_online; touch_online]
              {| app := app controls_shown;
                 buttons := setup_buttons presto_screen |}))
  = with_state (State.set_exit true)
      (emit (Print (Text "Exit pressed")) (app controls_shown)).
Proof.
  apply (exit_press_ends_input_loop presto_screen touch_corner
           [touch_online; touch_online] (app controls_shown)); reflexivity.
Defined.

(** ** The two loops write apart *)

Lemma display_side_kept_refl (a : App) : display_side_kept a a.
Proof. repeat split. intros H. exact H. Qed.

Lemma display_side_kept_trans (a1 a2 a3 : App) :
  display_side_kept a1 a2 -> display_side_kept a2 a3 ->
  display_side_kept a1 a3.
Proof.
  unfold display_side_kept.
  intros (H1 & H2 & H3 & H4 & H5 & H6 & H7) (K1 & K2 & K3 & K4 & K5 & K6 & K7).
  repeat split; try congruence. intros H. apply K7, H7, H.
Qed.

Lemma display_side_kept_emit (e : Event) (a : App) :
  (forall level, e <> Backlight level) -> display_side_kept a (emit e a).
Proof.
  intros He. repeat split; cbn.
  - rewrite backlight_calls_app. destruct e; cbn;
      try (rewrite app_nil_r; reflexivity).
    exfalso. apply (He level). reflexivity.
  - intros H. exact H.
Qed.

Lemma call_display_side_kept (env : Env) (c : Command) :
  keeps display_side_kept (call env c).
Proof. intros a. apply display_side_kept_emit. discriminate. Qed.

Lemma call_leds_display_side_kept (env : Env) (on : bool) :
  keeps display_side_kept (call_leds env on).
Proof. intros a. apply display_side_kept_emit. discriminate. Qed.

Ltac display_side_steps :=
  unfold assign, print;
  keeps_steps display_side_kept display_side_kept_refl display_side_kept_trans;
  try apply call_display_side_kept;
  try apply call_leds_display_side_kept;
  try (apply display_side_kept_emit; discriminate);
  try (repeat split; cbn; auto; fail).

Lemma handler_display_side_kept (d : Screen) (b : ControlButton) (env : Env) :
  In b (setup_buttons d) -> keeps display_side_kept (on_press b env).
Proof.
  intros Hin.
  repeat (destruct Hin as [<-|Hin]; [cbn [on_press new_button]|]);
    try contradiction.
  - unfold exit_app. display_side_steps.
  - unfold next_track. display_side_steps.
  - unfold previous_track. display_side_steps.
  - unfold play_pause. display_side_steps.
  - unfold toggle_shuffle_handler. display_side_steps.
  - unfold toggle_repeat_handler. display_side_steps.
  - unfold toggle_lights. display_side_steps.
  - unfold volume_up. display_side_steps.
  - unfold volume_down. display_side_steps.
  - unfold toggle_like. display_side_steps.
  - unfold toggle_controls. display_side_steps.
Qed.

(** X15: no handler of [setup_buttons] writes what the display loop
    owns: whether it returns or raises, the track, [progress_ms],
    [duration_ms], [is_dimmed] and the session's device id are as
    before, the backlight is not set, and an [exit] that was set stays
    set. *)
Theorem handlers_keep_display_side (d : Screen) (b : ControlButton)
    (env : Env) (a : App) :
  In b (setup_buttons d) ->
  State.track (state (fst (on_press b env a))) = State.track (state a) /\
  State.progress_ms (state (fst (on_press b env a)))
  = State.progress_ms (state a) /\
  State.duration_ms (state (fst (on_press b env a)))
  = State.duration_ms (state a) /\
  State.is_dimmed (state (fst (on_press b env a)))
  = State.is_dimmed (state a) /\
  session_device_id (fst (on_press b env a)) = session_device_id a /\
  backlight_calls (out (fst (on_press b env a))) = backlight_calls (out a) /\
  (State.exit (state a) = true ->
   State.exit (state (fst (on_press b env a))) = true).
Proof.
  intros Hin. apply (handler_display_side_kept d b env Hin a).
Qed.

Lemma handlers_keep_display_side_witness :
  State.track (state (fst (on_press play_button touch_online showing_track)))
  = State.track (state showing_track) /\
  State.progress_ms (state (fst (on_press play_button touch_online showing_track)))
  = State.progress_ms (state showing_track) /\
  State.duration_ms (state (fst (on_press play_button touch_online showing_track)))
  = State.duration_ms (state showing_track) /\
  State.is_dimmed (state (fst (on_press play_button touch_online showing_track)))
  = State.is_dimmed (state showing_track) /\
  session_device_id (fst (on_press play_button touch_online showing_track))
  = session_device_id showing_track /\
  backlight_calls (out (fst (on_press play_button touch_online showing_track)))
  = backlight_calls (out showing_track) /\
  (State.exit (state showing_track) = true ->
   State.exit (state (fst (on_press play_button touch_online showing_track)))
   = true).
Proof.
  apply (handlers_keep_display_side presto_screen play_button touch_online
           showing_track).
  simpl. tauto.
Defined.

Lemma commands_sent_app (xs ys : list Command) :
  commands_sent (xs ++ ys) = (commands_sent xs ++ commands_sent ys)%list.
Proof.
  induction xs as [|x xs IH]; [reflexivity|].
  destruct x; cbn; rewrite IH; reflexivity.
Qed.

Lemma input_side_kept_refl (a : App) : input_side_kept a a.
Proof. repeat split. Qed.

Lemma input_side_kept_trans (a1 a2 a3 : App) :
  input_side_kept a1 a2 -> input_side_kept a2 a3 -> input_side_kept a1 a3.
Proof.
  unfold input_side_kept.
  intros (H1 & H2 & H3 & H4 & H5) (K1 & K2 & K3 & K4 & K5).
  repeat split; congruence.
Qed.

Lemma input_side_kept_emit (e : Event) (a : App) :
  commands_sent (remote_calls [e]) = [] -> input_side_kept a (emit e a).
Proof.
  intros He. repeat split. cbn [out emit].
  rewrite remote_calls_app, commands_sent_app, He, app_nil_r. reflexivity.
Qed.

Lemma run_fetch_state_input_side_kept (cl : Client) :
  keeps input_side_kept (run_fetch_state cl).
Proof.
  intros a. unfold run_fetch_state.
  pose proof (fetch_state_remote_calls cl) as Hc.
  destruct (fetch_state cl) as [events r]. cbn [fst] in *.
  repeat split. cbn [out].
  rewrite remote_calls_app, commands_sent_app, Hc.
  destruct (current_item (current_playing_result cl)); cbn;
    rewrite app_nil_r; reflexivity.
Qed.

Ltac input_side_steps :=
  unfold assign, print, set_backlight;
  keeps_steps input_side_kept input_side_kept_refl input_side_kept_trans;
  try apply run_fetch_state_input_side_kept;
  try (apply input_side_kept_emit; reflexivity);
  try (repeat split; fail).

Lemma display_tick_input_side_kept (r : Reading) :
  keeps input_side_kept (display_tick r).
Proof.
  unfold display_tick, poll_block, progress_block, dimmer_block.
  input_side_steps.
  unfold call_check_saved_track. intros a.
  apply input_side_kept_emit. reflexivity.
Qed.

(** X16: the display loop writes nothing the input loop owns and sends
    no command: through any number of iterations, returning or raising,
    [show_controls], [exit], [toggle_leds] and [last_activity] are as
    before, and the only methods of the client it calls are
    current-playing, recently-played and check-saved-track. *)
Theorem display_loop_keeps_input_side (rs : list Reading) :
  forall a : App,
    State.show_controls (state (fst (display_loop rs a)))
    = State.show_controls (state a) /\
    State.exit (state (fst (display_loop rs a))) = State.exit (state a) /\
    State.toggle_leds (state (fst (display_loop rs a)))
    = State.toggle_leds (state a) /\
    State.last_activity (state (fst (display_loop rs a)))
    = State.last_activity (state a) /\
    commands_sent (remote_calls (out (fst (display_loop rs a))))
    = commands_sent (remote_calls (out a)).
Proof.
  induction rs as [|r later IH]; intros a.
  - repeat split.
  - change (input_side_kept a (fst (display_loop (r :: later) a))).
    cbn [display_loop].
    destruct (State.exit (state a)) eqn:He; [apply input_side_kept_refl|].
    pose proof (display_tick_input_side_kept r a) as H.
    destruct (display_tick r a) as [a1 [[]|e]]; cbn [fst] in *.
    + apply (input_side_kept_trans a a1); [exact H|apply IH].
    + exact H.
Qed.

(** ** A press wakes the display *)

Lemma handler_stamps_activity (d : Screen) (b : ControlButton) (env : Env)
    (a a1 : App) :
  In b (setup_buttons d) ->
  name b <> "Exit" ->
  (name b = "Like" -> truthy (State.track (state a)) = true) ->
  on_press b env a = (a1, Ok tt) ->
  State.last_activity (state a1) = time env.
Proof.
  intros Hin Hexit Hlike.
  repeat (destruct Hin as [<-|Hin];
          [cbn [on_press new_button name] in *|]); try contradiction.
  - unfold next_track, bind, call, assign, modify.
    destruct (command_result (client env) next) as [[]|e]; intros H;
      inversion H; reflexivity.
  - unfold previous_track, bind, call, assign, modify.
    destruct (command_result (client env) previous) as [[]|e]; intros H;
      inversion H; reflexivity.
  - unfold play_pause, bind, gets, call, assign, modify.
    destruct (truthy (State.is_playing (state a)));
      [destruct (command_result (client env) pause) as [[]|e]
      |destruct (command_result (client env) play) as [[]|e]];
      intros H; inversion H; reflexivity.
  - unfold toggle_shuffle_handler, bind, gets, call, assign, modify.
    match goal with |- context [command_result ?c ?x] =>
      destruct (command_result c x) as [[]|e] end;
      intros H; inversion H; reflexivity.
  - unfold toggle_repeat_handler, bind, gets, call, assign, modify.
    match goal with |- context [command_result ?c ?x] =>
      destruct (command_result c x) as [[]|e] end;
      intros H; inversion H; reflexivity.
  - unfold toggle_lights, bind, gets, call_leds, assign, modify.
    destruct (leds_result env (negb (State.toggle_leds (state a))))
      as [[]|e]; intros H; inversion H; reflexivity.
  - unfold volume_up, bind, gets, lift, call, assign, modify, print.
    destruct (py_arith Z.add (State.volume (state a)) (PInt 10)) as [x|e];
      [|intros H; discriminate H].
    destruct (py_min (PInt 100) (PInt x)) as [y|e];
      [|intros H; discriminate H].
    destruct (command_result (client env) (set_volume y)) as [[]|e];
      intros H; inversion H; reflexivity.
  - unfold volume_down, bind, gets, lift, call, assign, modify, print.
    destruct (py_arith Z.sub (State.volume (state a)) (PInt 10)) as [x|e];
      [|intros H; discriminate H].
    destruct (py_max (PInt 0) (PInt x)) as [y|e];
      [|intros H; discriminate H].
    destruct (command_result (client env) (set_volume y)) as [[]|e];
      intros H; inversion H; reflexivity.
  - unfold toggle_like, when, bind, gets, lift, call, assign, modify, print.
    rewrite (Hlike eq_refl).
    destruct (py_get (State.track (state a)) "id" PNone) as [i|e];
      [|intros H; discriminate H].
    destruct (State.is_liked (state a));
      match goal with |- context [command_result ?c ?x] =>
        destruct (command_result c x) as [[]|e] end;
      intros H; inversion H; reflexivity.
  - unfold toggle_controls, bind, gets, assign, modify.
    intros H; inversion H; reflexivity.
Qed.

Lemma dimmer_block_undims (now : Z) (a : App) :
  now - State.last_activity (state a) <= 30 ->
  State.is_dimmed (state a) = true ->
  dimmer_block now a
  = (emit (Backlight 1) (with_state (State.set_is_dimmed false) a), Ok tt).
Proof.
  intros Hactive Hdim.
  unfold dimmer_block, bind, gets, when, assign, modify, set_backlight,
    INACTIVITY_TIMEOUT.
  destruct (Z.ltb_spec 30 (now - State.last_activity (state a))); [lia|].
  rewrite Hdim. reflexivity.
Qed.

(** X17: a press wakes a dimmed display.  When a handler of
    [setup_buttons] other than the exit handler returns (for the like
    button: with a track present), [last_activity] is the time of the
    press, and a dimmer check at most 30 seconds later undims and sets
    the backlight to 1.0. *)
Theorem press_wakes_display (d : Screen) (b : ControlButton) (env : Env)
    (a a1 : App) (now : Z) :
  In b (setup_buttons d) ->
  name b <> "Exit" ->
  (name b = "Like" -> truthy (State.track (state a)) = true) ->
  on_press b env a = (a1, Ok tt) ->
  State.is_dimmed (state a) = true ->
  now - time env <= 30 ->
  State.last_activity (state a1) = time env /\
  dimmer_block now a1
  = (emit (Backlight 1) (with_state (State.set_is_dimmed false) a1), Ok tt).
Proof.
  intros Hin Hexit Hlike Hpress Hdim Hnow.
  pose proof (handler_stamps_activity d b env a a1 Hin Hexit Hlike Hpress)
    as Hstamp.
  pose proof (handler_display_side_kept d b env Hin a) as Hkept.
  rewrite Hpress in Hkept. cbn [fst] in Hkept.
  destruct Hkept as (_ & _ & _ & Hd & _).
  split; [exact Hstamp|].
  apply dimmer_block_undims.
  - rewrite Hstamp. exact Hnow.
  - rewrite Hd. exact Hdim.
Qed.

Lemma press_wakes_display_witness :
  State.last_activity (state (fst (on_press play_button touch_online dimmed_app)))
  = 100 /\
  dimmer_block 120 (fst (on_press play_button touch_online dimmed_app))
  = (emit (Backlight 1)
       (with_state (State.set_is_dimmed false)
          (fst (on_press play_button touch_online dimmed_app))), Ok tt).
Proof.
  apply (press_wakes_display presto_screen play_button touch_online
           dimmed_app (fst (on_press play_button touch_online dimmed_app)) 120).
  - simpl. tauto.
  - discriminate.
  - discriminate.
  - reflexivity.
  - reflexivity.
  - cbn. lia.
Defined.

(** ** Drawing the buttons *)

(** The buttons of [loaded_buttons] are those of [setup_buttons]. *)
Lemma loaded_buttons_are_setup_buttons (size : string -> Z * Z) (d : Screen) :
  map fst (loaded_buttons size d) = setup_buttons d.
Proof. reflexivity. Qed.

Lemma updates_keep_icon_loaded (pngs : Pngs)
    (u : State.t -> bool * option string -> bool * option string)
    (states : list State.t) :
  picks_loaded pngs u ->
  forall b, update b = u -> icon_loaded pngs b ->
            icon_loaded pngs (updated states b).
Proof.
  intros Hu. induction states as [|s rest IH]; intros b Hb Hl.
  - exact Hl.
  - cbn [updated fold_left]. apply IH.
    + unfold run_update. destruct (update b s (enabled b, icon b)). exact Hb.
    + unfold icon_loaded, run_update in *.
      destruct (Hu s (enabled b, icon b)) as [Hsame|(i & Hi & Hin)];
        rewrite <- Hb in *;
        destruct (update b s (enabled b, icon b)) as [e0 i0];
        cbn in *; subst i0; [exact Hl|exact Hin].
Qed.

Lemma draw_of_loaded_icon (pngs : Pngs) (b : ControlButton) :
  icon_loaded pngs b -> exists r, draw pngs b = Ok r.
Proof.
  unfold icon_loaded, draw, draw_icon, png_of. intros H.
  destruct (enabled b && icon_truthy (icon b)) eqn:Hc;
    [|eexists; reflexivity].
  destruct (icon b) as [i|];
    [|rewrite Bool.andb_false_r in Hc; discriminate Hc].
  destruct (lookup i pngs) as [[pw ph]|]; [|contradiction].
  cbn. destruct (bounds b) as [[[x y] w] h]. eexists. reflexivity.
Qed.

(** X18: drawing a button never looks up an image that was not loaded.
    For every button of [setup_buttons], with the images its constructor
    loaded, and after any series of updates, [draw] returns: the icon
    chosen by the update functions is always one of the button's icons,
    and the button without icons is never given one. *)
Theorem draw_finds_its_icon (size : string -> Z * Z) (d : Screen)
    (b : ControlButton) (pngs : Pngs) (states : list State.t) :
  In (b, pngs) (loaded_buttons size d) ->
  exists r, draw pngs (updated states b) = Ok r.
Proof.
  intros Hin. apply draw_of_loaded_icon.
  unfold loaded_buttons in Hin. cbn [map buttons_config] in Hin.
  repeat (destruct Hin as [Hin|Hin];
          [inversion Hin; subst b pngs; clear Hin|]); try contradiction;
    (eapply updates_keep_icon_loaded;
     [|reflexivity|cbn; try discriminate; exact I]);
    intros s v;
    try (left; reflexivity);
    right; cbn.
  - destruct (truthy (State.is_playing s)); eexists;
      (split; [reflexivity|cbn; discriminate]).
  - destruct (truthy (State.shuffle s)); eexists;
      (split; [reflexivity|cbn; discriminate]).
  - destruct (State.repeat s); eexists;
      (split; [reflexivity|cbn; discriminate]).
  - destruct (State.toggle_leds s); eexists;
      (split; [reflexivity|cbn; discriminate]).
  - destruct (State.is_liked s); eexists;
      (split; [reflexivity|cbn; discriminate]).
Qed.

Lemma draw_finds_its_icon_witness :
  exists r,
    draw (load_pngs icons_48 ["play.png"; "pause.png"])
      (updated [state showing_track; state fresh_app] play_button) = Ok r.
Proof.
  apply (draw_finds_its_icon icons_48 presto_screen play_button
           (load_pngs icons_48 ["play.png"; "pause.png"])
           [state showing_track; state fresh_app]).
  simpl. tauto.
Defined.

(** X19: [draw_icon] centres the image in the bounds of the button: on
    each axis the margin after the image exceeds the margin before it by
    0 or 1, also when the image is larger than the button. *)
Theorem draw_icon_centred (pngs : Pngs) (b : ControlButton)
    (x y w h pw ph px py : Z) :
  bounds b = (x, y, w, h) ->
  png_of pngs (icon b) = Ok (pw, ph) ->
  draw_icon pngs b = Ok (px, py) ->
  0 <= ((x + w) - (px + pw)) - (px - x) <= 1 /\
  0 <= ((y + h) - (py + ph)) - (py - y) <= 1.
Proof.
  intros Hb Hpng. unfold draw_icon. rewrite Hpng, Hb. cbn.
  intros H. inversion H; subst px py.
  split; Z.div_mod_to_equations; lia.
Qed.

Lemma draw_icon_centred_witness :
  0 <= ((190 + 80) - (206 + 48)) - (206 - 190) <= 1 /\
  0 <= ((380 + 100) - (406 + 48)) - (406 - 380) <= 1.
Proof.
  apply (draw_icon_centred (load_pngs icons_48 ["play.png"; "pause.png"])
           play_button 190 380 80 100 48 48 206 406); reflexivity.
Defined.

(** ** format_time *)

Lemma to_int_not_nil (n : Z) :
  Z.to_int n <> Decimal.Pos Decimal.Nil /\ Z.to_int n <> Decimal.Neg Decimal.Nil.
Proof.
  destruct n as [|p|p]; cbn; split; try discriminate;
    intros H; inversion H as [Hp];
    exact (DecimalPos.Unsigned.to_uint_nonnil p Hp).
Qed.

(** [int(str(n))] is [n]. *)
Lemma py_str_int_parse (n : Z) :
  option_map Z.of_int (NilZero.int_of_string (py_str_int n)) = Some n.
Proof.
  unfold py_str_int. destruct (to_int_not_nil n) as (H1 & H2).
  rewrite (NilZero.isi _ H1 H2). cbn. rewrite DecimalZ.of_to. reflexivity.
Qed.

Lemma py_str_int_inj (m n : Z) : py_str_int m = py_str_int n -> m = n.
Proof.
  intros H. pose proof (py_str_int_parse m) as Hm.
  rewrite H, py_str_int_parse in Hm. congruence.
Qed.

(** The seconds field has two characters and reads back as the number. *)
Lemma py_format_02d_parse (n : nat) :
  (n < 60)%nat ->
  String.length (py_format_02d (Z.of_nat n)) = 2%nat /\
  option_map Z.of_int (NilZero.int_of_string (py_format_02d (Z.of_nat n)))
  = Some (Z.of_nat n).
Proof.
  intros H.
  do 60 (destruct n as [|n]; [split; reflexivity|]).
  lia.
Qed.

Lemma string_length_append (a b : string) :
  String.length (a ++ b) = (String.length a + String.length b)%nat.
Proof. induction a as [|c a IH]; cbn; [reflexivity|rewrite IH; reflexivity]. Qed.

Lemma append_same_length_tail (a b x y : string) :
  String.length x = String.length y ->
  (a ++ x)%string = (b ++ y)%string -> a = b /\ x = y.
Proof.
  intros Hlen. revert b.
  induction a as [|c a IH]; intros [|c' b] H; cbn in H.
  - split; [reflexivity|exact H].
  - exfalso. rewrite H in Hlen. cbn in Hlen.
    rewrite string_length_append in Hlen. lia.
  - exfalso. rewrite <- H in Hlen. cbn in Hlen.
    rewrite string_length_append in Hlen. lia.
  - inversion H as [[Hc Ht]]. destruct (IH b Ht) as (-> & ->).
    split; reflexivity.
Qed.

(** X20: [format_time] shows different durations differently: it is
    injective on the integers, negative ones included; so the text
    changes whenever the number of seconds does. *)
Theorem format_time_injective (s t : Z) :
  format_time s = format_time t -> s = t.
Proof.
  unfold format_time. intros H.
  assert (Hs : 0 <= s mod 60 < 60) by (apply Z.mod_pos_bound; lia).
  assert (Ht : 0 <= t mod 60 < 60) by (apply Z.mod_pos_bound; lia).
  destruct (py_format_02d_parse (Z.to_nat (s mod 60))) as (Ls & Ps); [lia|].
  destruct (py_format_02d_parse (Z.to_nat (t mod 60))) as (Lt & Pt); [lia|].
  rewrite Z2Nat.id in Ls, Ps, Lt, Pt by lia.
  apply append_same_length_tail in H; [|cbn; congruence].
  destruct H as (Hm & Hsec). inversion Hsec as [Hsec'].
  assert (Hmin : s / 60 = t / 60) by (apply py_str_int_inj, Hm).
  assert (Hmod : s mod 60 = t mod 60) by (rewrite Hsec' in Ps; congruence).
  rewrite (Z.div_mod s 60), (Z.div_mod t 60) by lia.
  rewrite Hmin, Hmod. reflexivity.
Qed.

Lemma format_time_injective_witness : 125 = 60 * 2 + 5.
Proof.
  apply (format_time_injective 125 (60 * 2 + 5)). reflexivity.
Defined.

(** X21: [format_time] writes the minutes, a colon and exactly two more
    characters for the seconds, which are between 0 and 59 whatever the
    sign of the argument; the minutes are not wrapped into hours. *)
Theorem format_time_shape (s : Z) :
  exists seconds_field,
    format_time s = (py_str_int (s / 60) ++ ":" ++ seconds_field)%string /\
    String.length seconds_field = 2%nat /\
    option_map Z.of_int (NilZero.int_of_string seconds_field)
    = Some (s mod 60) /\
    0 <= s mod 60 < 60.
Proof.
  assert (Hs : 0 <= s mod 60 < 60) by (apply Z.mod_pos_bound; lia).
  destruct (py_format_02d_parse (Z.to_nat (s mod 60))) as (L & P); [lia|].
  rewrite Z2Nat.id in L, P by lia.
  exists (py_format_02d (s mod 60)). repeat split; try assumption; lia.
Qed.

(** ** get_album_cover *)

(** X22: [get_album_cover] takes the second image of the album: when the
    album lists fewer than two images the lookup raises [IndexError],
    outside the [try], before any request is made. *)
Theorem get_album_cover_needs_two_images
    (requests_get : Message -> result Response) (track album : pyval)
    (images : list pyval) :
  py_getitem track "album" = Ok album ->
  py_getitem album "images" = Ok (PList images) ->
  (List.length images < 2)%nat ->
  get_album_cover requests_get track = ([], Raise IndexError).
Proof.
  intros Ha Hi Hlen. unfold get_album_cover, img_url_of.
  rewrite Ha. cbn [bindR]. rewrite Hi. cbn [bindR].
  destruct images as [|i1 [|i2 rest]]; cbn in Hlen; try lia; reflexivity.
Qed.

Lemma get_album_cover_needs_two_images_witness :
  get_album_cover service_404 single_image_track = ([], Raise IndexError).
Proof.
  apply (get_album_cover_needs_two_images service_404 single_image_track
           (PDict [("images",
              PList [PDict [("url", PStr "https://i.scdn.co/image/large")]])])
           [PDict [("url", PStr "https://i.scdn.co/image/large")]]).
  - reflexivity.
  - reflexivity.
  - cbn. lia.
Defined.

(** X23: once the image URL is found, no exception leaves
    [get_album_cover]: it makes one request, for the resize URL of the
    second image; it returns the content when the request answers with
    status 200, and [None] when the request answers with another status
    or raises. *)
Theorem get_album_cover_swallows_failures
    (requests_get : Message -> result Response) (track img_url : pyval) :
  img_url_of track = Ok img_url ->
  (exists said,
     fst (get_album_cover requests_get track)
     = Get (resize_url img_url) :: map Said said) /\
  snd (get_album_cover requests_get track)
  = Ok match requests_get (resize_url img_url) with
       | Ok response =>
           if status_code response =? 200 then Some (content response)
           else None
       | Raise _ => None
       end.
Proof.
  intros H. unfold get_album_cover. rewrite H.
  destruct (requests_get (resize_url img_url)) as [response|e].
  - destruct (status_code response =? 200).
    + split; [exists []; reflexivity|reflexivity].
    + split; [eexists [_]; reflexivity|reflexivity].
  - split; [eexists [_]; reflexivity|reflexivity].
Qed.

Lemma get_album_cover_swallows_failures_witness :
  snd (get_album_cover service_down two_image_track) = Ok None /\
  snd (get_album_cover service_404 two_image_track) = Ok None.
Proof.
  split.
  - apply (get_album_cover_swallows_failures service_down two_image_track
             (PStr "https://i.scdn.co/image/medium")). reflexivity.
  - apply (get_album_cover_swallows_failures service_404 two_image_track
             (PStr "https://i.scdn.co/image/medium")). reflexivity.
Defined.

(** ** The texts of write_track *)

Lemma strip_non_ascii_length (text : string) :
  String.length (strip_non_ascii text) = String.length text.
Proof. induction text as [|c rest IH]; cbn; [reflexivity|rewrite IH; reflexivity]. Qed.

Lemma strip_non_ascii_all_ascii (text : string) :
  all_ascii (strip_non_ascii text) = true.
Proof.
  induction text as [|c rest IH]; cbn; [reflexivity|].
  rewrite IH, Bool.andb_true_r.
  change (nat_of_ascii c <=? 127)%nat with (nat_of_ascii c <? 128)%nat.
  destruct (nat_of_ascii c <? 128)%nat eqn:H; [exact H|reflexivity].
Qed.

Lemma strip_non_ascii_fixes_ascii (text : string) :
  all_ascii text = true -> strip_non_ascii text = text.
Proof.
  induction text as [|c rest IH]; cbn; [reflexivity|].
  intros H. apply Bool.andb_true_iff in H. destruct H as (Hc & Hr).
  rewrite Hc, (IH Hr). reflexivity.
Qed.

Lemma all_ascii_append (a b : string) :
  all_ascii (a ++ b) = all_ascii a && all_ascii b.
Proof.
  induction a as [|c a IH]; cbn; [reflexivity|].
  rewrite IH, Bool.andb_assoc. reflexivity.
Qed.

Lemma all_ascii_substring (text : string) (n : nat) :
  all_ascii text = true -> all_ascii (substring 0 n text) = true.
Proof.
  revert n. induction text as [|c rest IH]; intros n H.
  - destruct n; reflexivity.
  - destruct n as [|n]; [reflexivity|].
    cbn in H |- *. apply Bool.andb_true_iff in H. destruct H as (Hc & Hr).
    rewrite Hc, (IH n Hr). reflexivity.
Qed.

Lemma substring_length_le (text : string) (n : nat) :
  (String.length (substring 0 n text) <= n)%nat.
Proof.
  revert n. induction text as [|c rest IH]; intros n.
  - destruct n; cbn; lia.
  - destruct n as [|n]; cbn; [lia|]. specialize (IH n). lia.
Qed.

Lemma ellipsize_bounds (limit : nat) (text : string) :
  all_ascii text = true ->
  all_ascii (ellipsize limit text) = true /\
  (String.length (ellipsize limit text) <= limit + 4)%nat /\
  ((String.length text <= limit)%nat -> ellipsize limit text = text).
Proof.
  intros H. unfold ellipsize.
  destruct (Nat.ltb_spec limit (String.length text)) as [Hlt|Hle].
  - split; [|split].
    + rewrite all_ascii_append, (all_ascii_substring text limit H). reflexivity.
    + rewrite string_length_append. pose proof (substring_length_le text limit).
      cbn. lia.
    + intros Hle. lia.
  - split; [exact H|split; [lia|reflexivity]].
Qed.

(** X24: the track name [write_track] draws is ASCII and at most 24
    characters long, whatever the name of the track; a name of at most
    20 characters, all ASCII, is drawn as it is.  The artists are ASCII
    and at most 39 characters long. *)
Theorem write_track_texts_fit (track_name : string) (names : list string) :
  all_ascii (track_name_text track_name) = true /\
  (String.length (track_name_text track_name) <= 24)%nat /\
  ((String.length track_name <= 20)%nat -> all_ascii track_name = true ->
   track_name_text track_name = track_name) /\
  all_ascii (artists_text names) = true /\
  (String.length (artists_text names) <= 39)%nat.
Proof.
  unfold track_name_text, artists_text.
  destruct (ellipsize_bounds 20 (strip_non_ascii track_name)
              (strip_non_ascii_all_ascii track_name)) as (H1 & H2 & H3).
  destruct (ellipsize_bounds 35 (strip_non_ascii (String.concat ", " names))
              (strip_non_ascii_all_ascii _)) as (H4 & H5 & _).
  repeat split; try assumption.
  intros Hlen Hascii. rewrite H3.
  - apply strip_non_ascii_fixes_ascii, Hascii.
  - rewrite strip_non_ascii_length. exact Hlen.
Qed.

Lemma write_track_texts_fit_witness :
  track_name_text "Clair de Lune" = "Clair de Lune".
Proof.
  apply (proj1 (proj2 (proj2 (write_track_texts_fit "Clair de Lune" []))));
    [cbn; lia|reflexivity].
Defined.
